(** * Health component of flaki-service: status escalation and the sentry checker

    A shallow embedding of [pkg/health/component.go] (the aggregator) and of
    the sentry health module (the checker), with the properties the
    specification states about them.

    Conventions of the embedding:
    - a Go [int] or [time.Duration] is a [Z]; none of the code does
      arithmetic that could wrap;
    - a Go [string] is a [string] (a sequence of bytes);
    - a Go [error] value is an [option error], [None] being [nil];
    - a run-time panic (index out of range, nil dereference) is explicit:
      pure code returns [option], effectful code returns [Panicked];
    - a [map[string]string] is a [gmap string string]. *)

From stdpp Require Import gmap strings list.

Open Scope string_scope.
Open Scope Z_scope.

(** ** Status (component.go:9-31) *)

Definition Status := Z.

Definition OK : Status := 0.
Definition KO : Status := 1.
Definition Degraded : Status := 2.
Definition Deactivated : Status := 3.

(** Go's [l[i]] on a slice: a panic ([None]) outside [0 <= i < len(l)]. *)
Definition slice_index {A} (l : list A) (i : Z) : option A :=
  if (i <? 0) || (Z.of_nat (length l) <=? i) then None else l !! Z.to_nat i.

Definition names : list string := ["OK"; "KO"; "Degraded"; "Deactivated"].

(** [func (s Status) String() string]; [None] would be the panic of an
    out-of-range [names[s]]. *)
Definition Status_String (s : Status) : option string :=
  if (s <? OK) || (s >? Deactivated) then Some "Unknown"
  else slice_index names s.

(** ** Errors

    The [error] values the code builds: [fmt.Errorf] (a plain message) and
    [errors.Wrap] of github.com/pkg/errors (a message in front of a cause).
    Errors that come from the HTTP client are values of the same type. *)
Module errors.

Inductive error : Type :=
| errorString (msg : string)
| withMessage (cause : error) (msg : string).

(** The [Error()] method: [withMessage] renders as [msg + ": " + cause]. *)
Fixpoint Error (e : error) : string :=
  match e with
  | errorString msg => msg
  | withMessage cause msg => (msg ++ ": " ++ Error cause)%string
  end.

Definition Wrap (e : error) (message : string) : error :=
  withMessage e message.

(** [fmt.Errorf(prefix + "%v", s)] for a string argument [s]. *)
Definition Errorf (prefix s : string) : error := errorString (prefix ++ s)%string.

End errors.
Export errors.

(** ** Reports *)

(** [SentryReport] (sentry module, lines 42-48): what a checker returns. *)
Module SentryReport.
Record t : Type := mk
  { Name : string;
    Duration : Z;          (* time.Duration, in nanoseconds *)
    Status : Status;
    Error : option error }.
End SentryReport.

(** Modelled from the spec: the declarations of [InfluxReport],
    [JaegerReport] and [RedisReport] are not among the sources.  The spec
    gives every checker the one report shape {Name, Duration, Status, Error},
    and component.go:85-88 reads exactly these four fields of each. *)
Module InfluxReport.
Abbreviation t := SentryReport.t (only parsing).
End InfluxReport.
Module JaegerReport.
Abbreviation t := SentryReport.t (only parsing).
End JaegerReport.
Module RedisReport.
Abbreviation t := SentryReport.t (only parsing).
End RedisReport.

(** [Report] (component.go:71-77): the display shape, all strings. *)
Module Report.
Record t : Type := mk
  { Name : string;
    Duration : string;
    Status : string;
    Error : string }.
End Report.

(** [func err(err error) string] (component.go:151-157). *)
Definition err (e : option error) : string :=
  match e with
  | None => ""
  | Some e => Error e
  end.

(** ** determineStatus (component.go:159-178)

    The [for ... range] loop with its local [degraded]; a [return] inside
    the [switch] leaves the loop.  The [case] expressions are calls of
    [Status.String] and are evaluated in order, so they are bound in the
    option monad. *)
Fixpoint determineStatus_loop (degraded : bool) (reports : list Report.t)
  : option string :=
  match reports with
  | [] =>
      if degraded then Status_String Degraded else Status_String OK
  | r :: rest =>
      deactivated ← Status_String Deactivated;
      if String.eqb (Report.Status r) deactivated then
        Status_String Deactivated
      else
        ko ← Status_String KO;
        if String.eqb (Report.Status r) ko then
          Status_String KO
        else
          deg ← Status_String Degraded;
          if String.eqb (Report.Status r) deg then
            determineStatus_loop true rest
          else
            determineStatus_loop degraded rest
  end.

Definition determineStatus (reports : list Report.t) : option string :=
  determineStatus_loop false reports.

(** ** The aggregator (component.go:33-149) *)

(** [context.Context] is passed through and never inspected. *)
Definition context : Type := unit.

(** The four checker interfaces: one method each, [HealthChecks].  The
    aggregator sees a checker only through the reports the call returns. *)
Module InfluxHealthChecker.
Record t : Type := mk { HealthChecks : context -> list InfluxReport.t }.
End InfluxHealthChecker.
Module JaegerHealthChecker.
Record t : Type := mk { HealthChecks : context -> list JaegerReport.t }.
End JaegerHealthChecker.
Module RedisHealthChecker.
Record t : Type := mk { HealthChecks : context -> list RedisReport.t }.
End RedisHealthChecker.
Module SentryHealthChecker.
Record t : Type := mk { HealthChecks : context -> list SentryReport.t }.
End SentryHealthChecker.

Record Component : Type := mkComponent
  { influx : InfluxHealthChecker.t;
    jaeger : JaegerHealthChecker.t;
    redis : RedisHealthChecker.t;
    sentry : SentryHealthChecker.t }.

Definition NewComponent (influx : InfluxHealthChecker.t)
    (jaeger : JaegerHealthChecker.t) (redis : RedisHealthChecker.t)
    (sentry : SentryHealthChecker.t) : Component :=
  {| influx := influx; jaeger := jaeger; redis := redis; sentry := sentry |}.

Section Aggregator.

(** [time.Duration.String] belongs to Go's standard library; the
    aggregator only calls it, so it is a parameter here. *)
Variable Duration_String : Z -> string.

(** The loop [for _, r := range reports { out = append(out, Report{...}) }],
    written four times in the source with the same body
    (component.go:83-90, 98-105, 113-120, 128-135). *)
Fixpoint range_append (out : list Report.t) (reports : list SentryReport.t)
  : option (list Report.t) :=
  match reports with
  | [] => Some out
  | r :: rest =>
      status ← Status_String (SentryReport.Status r);
      range_append
        (out ++ [ {| Report.Name := SentryReport.Name r;
                     Report.Duration := Duration_String (SentryReport.Duration r);
                     Report.Status := status;
                     Report.Error := err (SentryReport.Error r) |} ])
        rest
  end.

Definition InfluxHealthChecks (c : Component) (ctx : context)
  : option (list Report.t) :=
  let reports := InfluxHealthChecker.HealthChecks (influx c) ctx in
  range_append [] reports.

Definition JaegerHealthChecks (c : Component) (ctx : context)
  : option (list Report.t) :=
  let reports := JaegerHealthChecker.HealthChecks (jaeger c) ctx in
  range_append [] reports.

Definition RedisHealthChecks (c : Component) (ctx : context)
  : option (list Report.t) :=
  let reports := RedisHealthChecker.HealthChecks (redis c) ctx in
  range_append [] reports.

Definition SentryHealthChecks (c : Component) (ctx : context)
  : option (list Report.t) :=
  let reports := SentryHealthChecker.HealthChecks (sentry c) ctx in
  range_append [] reports.

(** [AllHealthChecks] fills the map one key after the other. *)
Definition AllHealthChecks (c : Component) (ctx : context)
  : option (gmap string string) :=
  let reports : gmap string string := ∅ in
  i ← InfluxHealthChecks c ctx; si ← determineStatus i;
  let reports := <["influx" := si]> reports in
  j ← JaegerHealthChecks c ctx; sj ← determineStatus j;
  let reports := <["jaeger" := sj]> reports in
  r ← RedisHealthChecks c ctx; sr ← determineStatus r;
  let reports := <["redis" := sr]> reports in
  s ← SentryHealthChecks c ctx; ss ← determineStatus s;
  let reports := <["sentry" := ss]> reports in
  Some reports.

End Aggregator.

(** ** The sentry health module *)

(** *** What the module sees of [net/http] *)
Module http.

(** A response body ([io.ReadCloser]): the bytes [ioutil.ReadAll] gets
    out of it and the error it stops on, if any.  [handle] tells one
    body from another. *)
Record ReadCloser : Type := mkBody
  { handle : nat;
    data : string;
    readErr : option error }.

(** A response.  [Body] is an interface value and can be nil; the
    standard client never leaves it nil when it returns no error, but the
    module takes its client through an interface of its own. *)
Record Response : Type := mkResponse
  { Status : string;       (* e.g. "200 OK" *)
    StatusCode : Z;
    Body : option ReadCloser }.

Definition StatusOK : Z := 200.

End http.

(** *** Effects: the clock, the outbound call, the body

    The module reads the clock, calls the HTTP client, reads and closes
    the response body.  A [world] carries the clock and the trace of what
    was done; a computation either returns or panics. *)
Inductive event : Type :=
| EvGet (url : string)
| EvReadAll (body : http.ReadCloser)
| EvClose (body : http.ReadCloser).

Record world : Type := mkWorld
  { clock : Z;
    trace : list event }.

Inductive result (A : Type) : Type :=
| Returned (a : A)
| Panicked.
Arguments Returned {A} a.
Arguments Panicked {A}.

Definition M (A : Type) : Type := world -> result A * world.

Definition ret {A} (a : A) : M A := fun w => (Returned a, w).

Definition bind {A B} (m : M A) (k : A -> M B) : M B :=
  fun w =>
    match m w with
    | (Returned a, w') => k a w'
    | (Panicked, w') => (Panicked, w')
    end.

Declare Scope go_scope.
Delimit Scope go_scope with go.
Notation "'do' x <- m ; k" := (bind m (fun x => k))
  (at level 10, x name, m at level 100, k at level 200) : go_scope.
Notation "'do' ' p <- m ; k" := (bind m (fun x => match x with p => k end))
  (at level 10, p pattern, m at level 100, k at level 200) : go_scope.

Definition panic {A} : M A := fun w => (Panicked, w).

Definition emit (e : event) : M unit :=
  fun w => (Returned tt, {| clock := clock w; trace := trace w ++ [e] |}).

(** [defer d] in front of [body]: [d] runs when the function leaves
    [body], whether by a [return] or by a panic, and the outcome of [body]
    stands. *)
Definition deferring {A} (d : M unit) (body : M A) : M A :=
  fun w =>
    let '(r, w1) := body w in
    let '(_, w2) := d w1 in
    (r, w2).

(** [time.Now()] and [time.Since(t)]. *)
Definition time_Now : M Z := fun w => (Returned (clock w), w).
Definition time_Since (t : Z) : M Z := fun w => (Returned (clock w - t), w).

(** [sentryClient]: the interface with the one method [URL]. *)
Record sentryClient : Type := mkSentryClient { URL : string }.

(** [sentryHTTPClient]: the interface with the one method [Get].  A client
    is what it answers to a URL, a response and an error, either of which
    may be [nil], and how long the call takes. *)
Record sentryHTTPClient : Type := mkHTTPClient
  { answer : string -> option http.Response * option error;
    elapsed : string -> Z }.

Definition Get (c : sentryHTTPClient) (url : string)
  : M (option http.Response * option error) :=
  fun w =>
    (Returned (answer c url),
     {| clock := clock w + elapsed c url; trace := trace w ++ [EvGet url] |}).

Definition Body_Close (b : http.ReadCloser) : M unit := emit (EvClose b).

(** [ioutil.ReadAll(r)]; reading from a nil reader dereferences nil. *)
Definition ioutil_ReadAll (r : option http.ReadCloser)
  : M (string * option error) :=
  match r with
  | Some b =>
      (do _u <- emit (EvReadAll b); ret (http.data b, http.readErr b))%go
  | None => panic
  end.

(** The [defer res.Body.Close()] statement: the method value is taken when
    the statement runs, which dereferences a nil [Body]; what it gives is
    the call that runs when the function is left. *)
Definition defer_Body_Close (r : http.Response) : M (M unit) :=
  match http.Body r with
  | Some b => ret (Body_Close b)
  | None => panic
  end.


(** *** [strings.LastIndex]

    The index of the last instance of [substr] in [s], or -1: the
    candidates are tried from the right-most one, [len(s) - len(substr)],
    down to 0. *)
Fixpoint LastIndex_from (s substr : string) (i : nat) : Z :=
  if String.eqb (String.substring i (String.length substr) s) substr then
    Z.of_nat i
  else
    match i with
    | O => -1
    | S i' => LastIndex_from s substr i'
    end.

Definition strings_LastIndex (s substr : string) : Z :=
  if (String.length s <? String.length substr)%nat then -1
  else LastIndex_from s substr (String.length s - String.length substr).

(** *** The module (sentry module, lines 16-133)

    A module holds its two clients; both are present (neither interface
    value is nil). *)

Record SentryModule : Type := mkSentryModule
  { sentry_client : sentryClient;       (* field [sentry] *)
    httpClient : sentryHTTPClient;
    enabled : bool }.

Definition NewSentryModule (sentry : sentryClient)
    (httpClient : sentryHTTPClient) (enabled : bool) : SentryModule :=
  {| sentry_client := sentry; httpClient := httpClient; enabled := enabled |}.

(** Lines 94-98 of [pingSentry]: the health URL built from the DSN. *)
Definition healthURL (dsn : string) : string :=
  let url := "" in
  let idx := strings_LastIndex dsn "/api/" in
  if negb (idx =? -1) then
    (String.substring 0 (Z.to_nat idx) dsn ++ "/_health")%string
  else url.

Definition pingSentry (dsn : string) (httpClient : sentryHTTPClient)
  : M (option error) :=
  (let url := healthURL dsn in
   do '(res, err) <- Get httpClient url;
   match err with
   | Some e => ret (Some e)
   | None =>
       do deferred <- match res with
                      | Some r => defer_Body_Close r
                      | None => ret (ret tt)
                      end;
       deferring deferred
         (do r <- match res with Some r => ret r | None => panic end;
          if negb (http.StatusCode r =? http.StatusOK) then
            ret (Some (Errorf "http response status code: " (http.Status r)))
          else
            do '(response, err) <- ioutil_ReadAll (http.Body r);
            match err with
            | Some e => ret (Some e)
            | None =>
                if String.eqb response "ok" then ret None
                else ret (Some (Errorf "response should be 'ok' but is: "
                                   response))
            end)
   end)%go.

Definition sentryPingCheck (m : SentryModule) : M SentryReport.t :=
  (let healthCheckName := "ping" in
   if negb (enabled m) then
     ret {| SentryReport.Name := healthCheckName;
            SentryReport.Duration := 0;
            SentryReport.Status := Deactivated;
            SentryReport.Error := None |}
   else
     let dsn := URL (sentry_client m) in
     do now <- time_Now;
     do err <- pingSentry dsn (httpClient m);
     do duration <- time_Since now;
     let '(hcErr, s) :=
       match err with
       | Some e => (Some (Wrap e "could not ping sentry"), KO)
       | None => (None, OK)
       end in
     ret {| SentryReport.Name := healthCheckName;
            SentryReport.Duration := duration;
            SentryReport.Status := s;
            SentryReport.Error := hcErr |})%go.

Definition HealthChecks (m : SentryModule) (_ : context)
  : M (list SentryReport.t) :=
  (let reports : list SentryReport.t := [] in
   do r <- sentryPingCheck m;
   ret (reports ++ [r])%list)%go.

(** ** Reference definitions, in the words of the specification *)

(** Some report of the sequence has the status string [name]. *)
Definition has_status (name : string) (reports : list Report.t) : bool :=
  existsb (fun r => String.eqb (Report.Status r) name) reports.

(** The escalation of section 4.3 read over the whole sequence:
    Deactivated > KO > Degraded > OK. *)
Definition escalation (reports : list Report.t) : string :=
  if has_status "Deactivated" reports then "Deactivated"
  else if has_status "KO" reports then "KO"
  else if has_status "Degraded" reports then "Degraded"
  else "OK".

(** The two statuses on which the loop returns at once. *)
Definition short_circuits (r : Report.t) : bool :=
  String.eqb (Report.Status r) "Deactivated" || String.eqb (Report.Status r) "KO".

(** What the loop computes: the status of the first report that
    short-circuits, and without one Degraded if it was seen, else OK. *)
Definition first_wins (reports : list Report.t) : string :=
  match List.find short_circuits reports with
  | Some r => Report.Status r
  | None => if has_status "Degraded" reports then "Degraded" else "OK"
  end.

(** A status string the [switch] of [determineStatus] has a case for. *)
Definition escalates (r : Report.t) : bool :=
  short_circuits r || String.eqb (Report.Status r) "Degraded".

(** [t] occurs in [s]. *)
Definition occurs (t s : string) : Prop :=
  exists p q : string, s = (p ++ t ++ q)%string.

(** ** Sample reports and the kinds of dependency *)

(** The sample reports of the examples below. *)
Definition sample (status : string) : Report.t :=
  {| Report.Name := "ping"; Report.Duration := "0s";
     Report.Status := status; Report.Error := "" |}.

(** The dependency kinds and the key each has in the overall map. *)
Inductive Kind : Type := Influx | Jaeger | Redis | Sentry.

Definition kind_name (k : Kind) : string :=
  match k with
  | Influx => "influx"
  | Jaeger => "jaeger"
  | Redis => "redis"
  | Sentry => "sentry"
  end.

(** What the checker of kind [k] returns to the aggregator. *)
Definition checker_reports (k : Kind) (c : Component) (ctx : context)
  : list SentryReport.t :=
  match k with
  | Influx => InfluxHealthChecker.HealthChecks (influx c) ctx
  | Jaeger => JaegerHealthChecker.HealthChecks (jaeger c) ctx
  | Redis => RedisHealthChecker.HealthChecks (redis c) ctx
  | Sentry => SentryHealthChecker.HealthChecks (sentry c) ctx
  end.

(** The component whose checkers return the given reports whatever the
    context. *)
Definition component_returning (i j r s : list SentryReport.t) : Component :=
  NewComponent (InfluxHealthChecker.mk (fun _ => i))
    (JaegerHealthChecker.mk (fun _ => j))
    (RedisHealthChecker.mk (fun _ => r))
    (SentryHealthChecker.mk (fun _ => s)).

Section AggregatorSpec.

Variable Duration_String : Z -> string.

(** The display report [d] is the projection of the report [r]. *)
Definition displays (r : SentryReport.t) (d : Report.t) : Prop :=
  Report.Name d = SentryReport.Name r /\
  Report.Duration d = Duration_String (SentryReport.Duration r) /\
  Status_String (SentryReport.Status r) = Some (Report.Status d) /\
  Report.Error d = match SentryReport.Error r with
                   | None => ""
                   | Some e => Error e
                   end.

(** A per-kind method returned, and what it returned is the element-wise
    projection of [reports]. *)
Definition projects (reports : list SentryReport.t)
    (returned : option (list Report.t)) : Prop :=
  exists out : list Report.t,
    returned = Some out /\
    length out = length reports /\
    Forall2 displays reports out.

(** One kind's entry of the overall map, from its checker's reports. *)
Definition overall (reports : list SentryReport.t) : option string :=
  out ← range_append Duration_String [] reports; determineStatus out.

End AggregatorSpec.

(** ** The sentry module: the vocabulary of its properties *)

(** The report of a deactivated sub-check. *)
Definition deactivated_report (r : SentryReport.t) : Prop :=
  SentryReport.Status r = Deactivated /\
  SentryReport.Duration r = 0 /\
  SentryReport.Error r = None.

(** The error [pingSentry] returns when [Get] gave a response with the
    body [b] and no error: lines 113-132. *)
Definition verdict (r : http.Response) (b : http.ReadCloser) : option error :=
  if negb (http.StatusCode r =? http.StatusOK) then
    Some (Errorf "http response status code: " (http.Status r))
  else
    match http.readErr b with
    | Some e => Some e
    | None =>
        if String.eqb (http.data b) "ok" then None
        else Some (Errorf "response should be 'ok' but is: " (http.data b))
    end.

(** The events between the [Get] and the deferred [Close]. *)
Definition reads (r : http.Response) (b : http.ReadCloser) : list event :=
  if negb (http.StatusCode r =? http.StatusOK) then []
  else [EvReadAll b].

(** The report's error wraps [cause]: it is [errors.Wrap(cause, msg)]. *)
Definition wraps (e : option error) (cause : error) : Prop :=
  exists msg : string, e = Some (Wrap cause msg).

(** The report's error is not nil and its message contains [s]. *)
Definition mentions (e : option error) (s : string) : Prop :=
  exists e' : error, e = Some e' /\ occurs s (Error e').

(** The classification in the words of the specification, for what [Get]
    returned: transport error, unexpected status, body other than "ok",
    success.  Without an error and without a response that has a body
    there is nothing to classify. *)
Definition classified_as_claimed
    (got : option http.Response * option error) (rep : SentryReport.t) : Prop :=
  match got with
  | (_, Some e) =>
      SentryReport.Status rep = KO /\ wraps (SentryReport.Error rep) e
  | (Some r, None) =>
      match http.Body r with
      | Some b =>
          if negb (http.StatusCode r =? http.StatusOK) then
            SentryReport.Status rep = KO /\
            mentions (SentryReport.Error rep) (http.Status r)
          else if negb (String.eqb (http.data b) "ok") then
            SentryReport.Status rep = KO /\
            mentions (SentryReport.Error rep) (http.data b)
          else
            SentryReport.Status rep = OK /\ SentryReport.Error rep = None
      | None => True
      end
  | (None, None) => True
  end.

(** The same with the case the code has in between: the body of a 200
    response cannot be read to its end. *)
Definition classified
    (got : option http.Response * option error) (rep : SentryReport.t) : Prop :=
  match got with
  | (_, Some e) =>
      SentryReport.Status rep = KO /\ wraps (SentryReport.Error rep) e
  | (Some r, None) =>
      match http.Body r with
      | Some b =>
          if negb (http.StatusCode r =? http.StatusOK) then
            SentryReport.Status rep = KO /\
            mentions (SentryReport.Error rep) (http.Status r)
          else
            match http.readErr b with
            | Some e =>
                SentryReport.Status rep = KO /\
                wraps (SentryReport.Error rep) e
            | None =>
                if negb (String.eqb (http.data b) "ok") then
                  SentryReport.Status rep = KO /\
                  mentions (SentryReport.Error rep) (http.data b)
                else
                  SentryReport.Status rep = OK /\
                  SentryReport.Error rep = None
            end
      | None => True
      end
  | (None, None) => True
  end.

(** [Get] answered with something [pingSentry] can work on: an error, or
    a response that has a body. *)
Definition answered (got : option http.Response * option error) : bool :=
  match got with
  | (_, Some _) => true
  | (Some r, None) =>
      match http.Body r with Some _ => true | None => false end
  | (None, None) => false
  end.

(** What [Get] answers to the module's health URL. *)
Definition got (m : SentryModule) : option http.Response * option error :=
  answer (httpClient m) (healthURL (URL (sentry_client m))).

(** A 200 response whose body yields "ok" and then breaks off. *)
Definition truncated_body : http.ReadCloser :=
  {| http.handle := 1;
     http.data := "ok";
     http.readErr := Some (errorString "unexpected EOF") |}.

Definition truncated_ok : http.Response :=
  {| http.Status := "200 OK";
     http.StatusCode := 200;
     http.Body := Some truncated_body |}.

Definition truncating_module : SentryModule :=
  NewSentryModule (mkSentryClient "https://key@sentry.io/api/12")
    (mkHTTPClient (fun _ => (Some truncated_ok, None)) (fun _ => 5)) true.

(** A 200 response with the body "not ok" (reference scenario B). *)
Definition not_ok_body : http.ReadCloser :=
  {| http.handle := 2; http.data := "not ok"; http.readErr := None |}.

Definition not_ok : http.Response :=
  {| http.Status := "200 OK";
     http.StatusCode := 200;
     http.Body := Some not_ok_body |}.

Definition mismatching_module : SentryModule :=
  NewSentryModule (mkSentryClient "https://key@sentry.io/api/12")
    (mkHTTPClient (fun _ => (Some not_ok, None)) (fun _ => 5)) true.

(** A response that [Get] hands over together with an error. *)
Definition redirected_body : http.ReadCloser :=
  {| http.handle := 3; http.data := ""; http.readErr := None |}.

Definition redirected : http.Response :=
  {| http.Status := "302 Found";
     http.StatusCode := 302;
     http.Body := Some redirected_body |}.

(** A client that hands over the same response without an error. *)
Definition redirect_free_client : sentryHTTPClient :=
  mkHTTPClient (fun _ => (Some redirected, None)) (fun _ => 5).

Definition redirect_client : sentryHTTPClient :=
  mkHTTPClient
    (fun _ => (Some redirected, Some (errorString "stopped after 10 redirects")))
    (fun _ => 5).

(** The inputs of the reference scenarios of the specification. *)
Definition sample_dsn : string := "https://key@sentry.io/api/12".

Definition module_answering (r : option http.Response * option error)
  : SentryModule :=
  NewSentryModule (mkSentryClient sample_dsn)
    (mkHTTPClient (fun _ => r) (fun _ => 5)) true.

Definition response (status : string) (code : Z) (body : string)
  : http.Response :=
  {| http.Status := status;
     http.StatusCode := code;
     http.Body := Some {| http.handle := 0; http.data := body;
                          http.readErr := None |} |}.

Definition report_of (m : SentryModule) : option SentryReport.t :=
  match sentryPingCheck m (mkWorld 0 []) with
  | (Returned rep, _) => Some rep
  | (Panicked, _) => None
  end.

Definition ok_report : SentryReport.t := SentryReport.mk "ping" 5 OK None.
Definition ko_report : SentryReport.t :=
  SentryReport.mk "ping" 5 KO (Some (errorString "connection refused")).

Definition all_ok : Component :=
  component_returning [ok_report] [ok_report] [ok_report] [ok_report].

Definition sentry_ko : Component :=
  component_returning [ok_report] [ok_report] [ok_report] [ko_report].

(** A stand-in for [time.Duration.String] in the examples, which only
    need it to be some function. *)
Definition fixed_rendering (d : Z) : string := "5ns".

(** ** Further vocabulary: sequencing, traces, outcomes *)

(** The overall status of a sequence followed by another one, from the
    overall statuses [a] and [b] of the two: a short-circuiting [a]
    stands, a Degraded [a] is kept unless [b] is worse than OK, and
    otherwise [b] decides. *)
Definition followed_by (a b : string) : string :=
  if String.eqb a "Deactivated" || String.eqb a "KO" then a
  else if String.eqb a "Degraded" then
         if String.eqb b "OK" then "Degraded" else b
       else b.

(** A report the aggregator counts as healthy: its status is none of KO,
    Degraded and Deactivated. *)
Definition healthy (r : SentryReport.t) : Prop :=
  SentryReport.Status r <> KO /\
  SentryReport.Status r <> Degraded /\
  SentryReport.Status r <> Deactivated.

(** The URLs of the [Get] calls of a trace, in the order of the calls. *)
Fixpoint gets (t : list event) : list string :=
  match t with
  | [] => []
  | EvGet url :: t' => url :: gets t'
  | _ :: t' => gets t'
  end.

(** What [pingSentry] returns for what [Get] answers to the module:
    the error of [Get], or the verdict on its response. *)
Definition outcome (m : SentryModule) : option error :=
  match got m with
  | (_, Some e) => Some e
  | (Some r, None) =>
      match http.Body r with
      | Some b => verdict r b
      | None => None
      end
  | (None, None) => None
  end.

(** The effects of [pingSentry] after its [Get]: with a response and no
    error the body is read if the status is 200 and then closed; otherwise
    there is none. *)
Definition after_Get (m : SentryModule) : list event :=
  match got m with
  | (Some r, None) =>
      match http.Body r with
      | Some b => (reads r b ++ [EvClose b])%list
      | None => []
      end
  | _ => []
  end.

(** The report of an enabled module for what [Get] answers. *)
Definition enabled_report (m : SentryModule) : SentryReport.t :=
  {| SentryReport.Name := "ping";
     SentryReport.Duration :=
       elapsed (httpClient m) (healthURL (URL (sentry_client m)));
     SentryReport.Status :=
       match outcome m with Some _ => KO | None => OK end;
     SentryReport.Error :=
       match outcome m with
       | Some e => Some (Wrap e "could not ping sentry")
       | None => None
       end |}.

(** A response that has no body, from a client other than the standard
    one. *)
Definition bodiless : http.Response :=
  {| http.Status := "503 Service Unavailable";
     http.StatusCode := 503;
     http.Body := None |}.

(** A module that needs no network: it is disabled. *)
Definition disabled_module : SentryModule :=
  NewSentryModule (mkSentryClient "https://key@sentry.io/api/12")
    (mkHTTPClient (fun _ => (None, None)) (fun _ => 0)) false.

(** ** Status.String *)

Lemma Status_String_OK : Status_String OK = Some "OK".
Proof. reflexivity. Qed.
Lemma Status_String_KO : Status_String KO = Some "KO".
Proof. reflexivity. Qed.
Lemma Status_String_Degraded : Status_String Degraded = Some "Degraded".
Proof. reflexivity. Qed.
Lemma Status_String_Deactivated : Status_String Deactivated = Some "Deactivated".
Proof. reflexivity. Qed.

Lemma Status_String_in_range (s : Status) :
  OK <= s <= Deactivated ->
  Status_String s = names !! Z.to_nat s /\ (Z.to_nat s < length names)%nat.
Proof.
  unfold Status_String, slice_index, OK, Deactivated. intros Hs. simpl length.
  rewrite Z.gtb_ltb.
  destruct (Z.ltb_spec s 0) as [Hlo | Hlo]; [lia |].
  destruct (Z.ltb_spec 3 s) as [Hhi | Hhi]; [lia |].
  destruct (Z.leb_spec (Z.of_nat 4) s) as [Hlen | Hlen]; [lia |].
  simpl. split; [reflexivity | lia].
Qed.

Lemma Status_String_out_of_range (s : Status) :
  s < OK \/ s > Deactivated -> Status_String s = Some "Unknown".
Proof.
  unfold Status_String, OK, Deactivated. intros Hs.
  rewrite Z.gtb_ltb.
  destruct (Z.ltb_spec s 0) as [Hlo | Hlo]; [reflexivity |].
  destruct (Z.ltb_spec 3 s) as [Hhi | Hhi]; [reflexivity |]. lia.
Qed.

(** [Status.String] returns on every integer: the index into [names] is
    only reached in range. *)
Lemma Status_String_returns (s : Status) :
  exists name : string, Status_String s = Some name.
Proof.
  destruct (decide (OK <= s <= Deactivated)) as [Hin | Hout].
  - destruct (Status_String_in_range s Hin) as [Heq Hlt].
    rewrite Heq. apply lookup_lt_is_Some_2 in Hlt as [name Hname].
    exists name. exact Hname.
  - exists "Unknown". apply Status_String_out_of_range. lia.
Qed.

(** C8. [Status.String] is total: on every integer it returns a name and
    never indexes [names] out of bounds; the name is the one of the status
    for the four defined values and "Unknown" for every other integer, so
    it is never the empty string. *)
Theorem Status_String_total (s : Status) :
  exists name : string,
    Status_String s = Some name /\
    name <> "" /\
    name = (if s =? OK then "OK"
            else if s =? KO then "KO"
            else if s =? Degraded then "Degraded"
            else if s =? Deactivated then "Deactivated"
            else "Unknown").
Proof.
  destruct (decide (OK <= s <= Deactivated)) as [Hin | Hout].
  - unfold OK, Deactivated in Hin.
    assert (Hcases : s = 0 \/ s = 1 \/ s = 2 \/ s = 3) by lia.
    destruct Hcases as [-> | [-> | [-> | ->]]];
      eexists; (split; [reflexivity | split; [discriminate | reflexivity]]).
  - exists "Unknown". unfold OK, Deactivated in Hout.
    split; [apply Status_String_out_of_range; unfold OK, Deactivated; lia |].
    split; [discriminate |].
    unfold OK, KO, Degraded, Deactivated.
    destruct (Z.eqb_spec s 0); [lia |]. destruct (Z.eqb_spec s 1); [lia |].
    destruct (Z.eqb_spec s 2); [lia |]. destruct (Z.eqb_spec s 3); [lia |].
    reflexivity.
Qed.

(** ** determineStatus *)

Lemma determineStatus_loop_cons (degraded : bool) (r : Report.t)
    (rest : list Report.t) :
  determineStatus_loop degraded (r :: rest) =
    if String.eqb (Report.Status r) "Deactivated" then Some "Deactivated"
    else if String.eqb (Report.Status r) "KO" then Some "KO"
    else if String.eqb (Report.Status r) "Degraded"
         then determineStatus_loop true rest
         else determineStatus_loop degraded rest.
Proof. reflexivity. Qed.

Lemma has_status_cons (name : string) (r : Report.t) (rest : list Report.t) :
  has_status name (r :: rest) =
    String.eqb (Report.Status r) name || has_status name rest.
Proof. reflexivity. Qed.

Lemma determineStatus_loop_first_wins (reports : list Report.t) :
  forall degraded : bool,
    determineStatus_loop degraded reports =
      Some (match List.find short_circuits reports with
            | Some r => Report.Status r
            | None =>
                if degraded || has_status "Degraded" reports
                then "Degraded" else "OK"
            end).
Proof.
  induction reports as [| r rest IH]; intros degraded.
  - simpl. destruct degraded; reflexivity.
  - rewrite determineStatus_loop_cons, has_status_cons. simpl List.find.
    replace (short_circuits r) with
      (String.eqb (Report.Status r) "Deactivated"
       || String.eqb (Report.Status r) "KO") by reflexivity.
    destruct (String.eqb (Report.Status r) "Deactivated") eqn:Hd.
    + apply String.eqb_eq in Hd. simpl. now rewrite Hd.
    + destruct (String.eqb (Report.Status r) "KO") eqn:Hk.
      * apply String.eqb_eq in Hk. simpl. now rewrite Hk.
      * simpl orb.
        destruct (String.eqb (Report.Status r) "Degraded") eqn:Hg.
        -- rewrite IH. simpl. now rewrite orb_true_r.
        -- rewrite IH. reflexivity.
Qed.

Lemma determineStatus_first_wins (reports : list Report.t) :
  determineStatus reports = Some (first_wins reports).
Proof.
  unfold determineStatus, first_wins.
  now rewrite determineStatus_loop_first_wins.
Qed.

Lemma has_status_true (name : string) (reports : list Report.t) :
  has_status name reports = true <->
  exists r, r ∈ reports /\ Report.Status r = name.
Proof.
  unfold has_status. rewrite existsb_exists. split.
  - intros (r & Hin & Heq). exists r. split.
    + now apply list_elem_of_In.
    + now apply String.eqb_eq.
  - intros (r & Hin & Heq). exists r. split.
    + now apply list_elem_of_In.
    + now apply String.eqb_eq.
Qed.

Lemma has_status_false (name : string) (reports : list Report.t) :
  has_status name reports = false <->
  Forall (fun r => Report.Status r <> name) reports.
Proof.
  rewrite Forall_forall. split.
  - intros Hf r Hin Heq.
    assert (Ht : has_status name reports = true)
      by (apply has_status_true; eauto).
    congruence.
  - intros Hall. destruct (has_status name reports) eqn:Hh; [| reflexivity].
    apply has_status_true in Hh as (r & Hin & Heq). now destruct (Hall r Hin).
Qed.

Lemma has_status_perm (name : string) (l l' : list Report.t) :
  l ≡ₚ l' -> has_status name l = has_status name l'.
Proof.
  intros Hp.
  destruct (has_status name l) eqn:H1; symmetry.
  - apply has_status_true in H1 as (r & Hin & Heq).
    apply has_status_true. exists r. split; [| assumption].
    now rewrite <- Hp.
  - apply has_status_false. apply has_status_false in H1.
    now rewrite <- Hp.
Qed.

Lemma escalation_perm (l l' : list Report.t) :
  l ≡ₚ l' -> escalation l = escalation l'.
Proof.
  intros Hp. unfold escalation.
  now rewrite !(has_status_perm _ l l' Hp).
Qed.

(** On a sequence that does not hold both short-circuiting statuses the
    first one met is the one the precedence picks. *)
Lemma first_wins_unmixed (reports : list Report.t) :
  has_status "Deactivated" reports && has_status "KO" reports = false ->
  first_wins reports = escalation reports.
Proof.
  intros Hmix. unfold first_wins, escalation.
  destruct (List.find short_circuits reports) as [r |] eqn:Hfind.
  - apply find_some in Hfind as [Hin Hsc].
    apply list_elem_of_In in Hin. unfold short_circuits in Hsc.
    apply orb_true_iff in Hsc as [Hd | Hk].
    + apply String.eqb_eq in Hd.
      assert (Ht : has_status "Deactivated" reports = true)
        by (apply has_status_true; eauto).
      now rewrite Ht.
    + apply String.eqb_eq in Hk.
      assert (Ht : has_status "KO" reports = true)
        by (apply has_status_true; eauto).
      rewrite Ht in *. rewrite andb_true_r in Hmix. now rewrite Hmix.
  - assert (Hd : has_status "Deactivated" reports = false).
    { apply has_status_false, Forall_forall. intros r Hin Heq.
      apply list_elem_of_In in Hin.
      pose proof (find_none _ _ Hfind r Hin) as Hn.
      unfold short_circuits in Hn. rewrite Heq in Hn. discriminate. }
    assert (Hk : has_status "KO" reports = false).
    { apply has_status_false, Forall_forall. intros r Hin Heq.
      apply list_elem_of_In in Hin.
      pose proof (find_none _ _ Hfind r Hin) as Hn.
      unfold short_circuits in Hn. rewrite Heq in Hn. discriminate. }
    now rewrite Hd, Hk.
Qed.

Lemma determineStatus_unmixed (reports : list Report.t) :
  has_status "Deactivated" reports && has_status "KO" reports = false ->
  determineStatus reports = Some (escalation reports).
Proof.
  intros Hmix. rewrite determineStatus_first_wins.
  now rewrite first_wins_unmixed.
Qed.

(** C1, as stated, fails: a KO report in front of a Deactivated one makes
    the loop return "KO" at the first report, while the precedence over the
    whole sequence asks for "Deactivated". *)
Lemma determineStatus_KO_before_Deactivated :
  determineStatus [sample "KO"; sample "Deactivated"] = Some "KO" /\
  escalation [sample "KO"; sample "Deactivated"] = "Deactivated" /\
  determineStatus [sample "KO"; sample "Deactivated"]
    <> Some (escalation [sample "KO"; sample "Deactivated"]).
Proof. split; [reflexivity | split; [reflexivity | discriminate]]. Qed.

(** C1, amended. [determineStatus] always returns, and its result is the
    escalation with precedence Deactivated > KO > Degraded > OK on every
    sequence that does not hold both a Deactivated and a KO report; on a
    sequence that holds both it is the status of whichever of the two
    comes first. *)
Theorem determineStatus_escalation (reports : list Report.t) :
  determineStatus reports =
    Some (if has_status "Deactivated" reports && has_status "KO" reports
          then first_wins reports
          else escalation reports).
Proof.
  destruct (has_status "Deactivated" reports && has_status "KO" reports)
    eqn:Hmix.
  - apply determineStatus_first_wins.
  - now apply determineStatus_unmixed.
Qed.

(** C2, as stated, fails: the two orders of a KO and a Deactivated report
    are permutations of each other and get different overall statuses. *)
Lemma determineStatus_not_permutation_invariant :
  [sample "KO"; sample "Deactivated"] ≡ₚ [sample "Deactivated"; sample "KO"] /\
  determineStatus [sample "KO"; sample "Deactivated"]
    <> determineStatus [sample "Deactivated"; sample "KO"].
Proof. split; [apply perm_swap | discriminate]. Qed.

(** C2, amended. The overall status is invariant under reordering of
    every sequence that does not hold both a Deactivated and a KO report. *)
Theorem determineStatus_perm (l l' : list Report.t) :
  l ≡ₚ l' ->
  has_status "Deactivated" l && has_status "KO" l = false ->
  determineStatus l = determineStatus l'.
Proof.
  intros Hp Hmix.
  assert (Hmix' : has_status "Deactivated" l' && has_status "KO" l' = false)
    by now rewrite <- !(has_status_perm _ l l' Hp).
  rewrite (determineStatus_unmixed l Hmix), (determineStatus_unmixed l' Hmix').
  now rewrite (escalation_perm l l' Hp).
Qed.

Lemma determineStatus_perm_witness :
  [sample "Degraded"; sample "OK"; sample "KO"]
    ≡ₚ [sample "KO"; sample "Degraded"; sample "OK"] /\
  has_status "Deactivated" [sample "Degraded"; sample "OK"; sample "KO"]
    && has_status "KO" [sample "Degraded"; sample "OK"; sample "KO"] = false /\
  determineStatus [sample "Degraded"; sample "OK"; sample "KO"] =
  determineStatus [sample "KO"; sample "Degraded"; sample "OK"].
Proof.
  assert (Hp : [sample "Degraded"; sample "OK"; sample "KO"]
                 ≡ₚ [sample "KO"; sample "Degraded"; sample "OK"]).
  { change ([sample "Degraded"; sample "OK"] ++ [sample "KO"]
            ≡ₚ [sample "KO"] ++ [sample "Degraded"; sample "OK"]).
    apply Permutation_app_comm. }
  split; [exact Hp | split; [reflexivity |]].
  apply determineStatus_perm; [exact Hp | reflexivity].
Defined.

(** Reports without a case in the [switch] leave the loop's state as it
    is. *)
Lemma determineStatus_loop_skip (degraded : bool) (reports : list Report.t) :
  Forall (fun r => escalates r = false) reports ->
  determineStatus_loop degraded reports =
    Some (if degraded then "Degraded" else "OK").
Proof.
  induction 1 as [| r rest Hr _ IH].
  - destruct degraded; reflexivity.
  - rewrite determineStatus_loop_cons.
    unfold escalates, short_circuits in Hr.
    apply orb_false_iff in Hr as [Hsc Hg].
    apply orb_false_iff in Hsc as [Hd Hk].
    now rewrite Hd, Hk, Hg.
Qed.

(** C10. A sequence with no report whose status string is "Deactivated",
    "KO" or "Degraded" (the empty sequence, or reports with unrecognised
    status strings such as "Unknown") gets the overall status "OK". *)
Theorem determineStatus_default_OK (reports : list Report.t) :
  Forall (fun r => Report.Status r <> "Deactivated" /\
                   Report.Status r <> "KO" /\
                   Report.Status r <> "Degraded") reports ->
  determineStatus reports = Some "OK".
Proof.
  intros Hall. unfold determineStatus.
  rewrite determineStatus_loop_skip; [reflexivity |].
  eapply Forall_impl; [exact Hall |].
  intros r (Hd & Hk & Hg). unfold escalates, short_circuits.
  apply String.eqb_neq in Hd, Hk, Hg. now rewrite Hd, Hk, Hg.
Qed.

Lemma determineStatus_default_OK_witness :
  Forall (fun r => Report.Status r <> "Deactivated" /\
                   Report.Status r <> "KO" /\
                   Report.Status r <> "Degraded")
    [sample "Unknown"; sample "OK"; sample "unheard of"] /\
  determineStatus [sample "Unknown"; sample "OK"; sample "unheard of"]
    = Some "OK".
Proof.
  assert (H : Forall (fun r => Report.Status r <> "Deactivated" /\
                               Report.Status r <> "KO" /\
                               Report.Status r <> "Degraded")
                [sample "Unknown"; sample "OK"; sample "unheard of"])
    by (repeat constructor; discriminate).
  split; [exact H |].
  apply determineStatus_default_OK. exact H.
Defined.

Example determineStatus_empty : determineStatus [] = Some "OK".
Proof. reflexivity. Qed.

(** Unrecognised status strings never change the overall status: dropping
    them from the sequence gives the same result. *)
Lemma determineStatus_loop_filter (reports : list Report.t) :
  forall degraded : bool,
    determineStatus_loop degraded (List.filter escalates reports) =
    determineStatus_loop degraded reports.
Proof.
  induction reports as [| r rest IH]; intros degraded; [reflexivity |].
  simpl List.filter. destruct (escalates r) eqn:He.
  - rewrite !determineStatus_loop_cons, !IH. reflexivity.
  - rewrite determineStatus_loop_cons with (r := r), IH.
    unfold escalates, short_circuits in He.
    apply orb_false_iff in He as [Hsc Hg].
    apply orb_false_iff in Hsc as [Hd Hk].
    now rewrite Hd, Hk, Hg.
Qed.

(** ** The aggregator *)

Section AggregatorProperties.

Variable Duration_String : Z -> string.

Lemma range_append_displays (reports : list SentryReport.t) :
  forall out : list Report.t,
    exists ds : list Report.t,
      range_append Duration_String out reports = Some (out ++ ds)%list /\
      Forall2 (displays Duration_String) reports ds.
Proof.
  induction reports as [| r rest IH]; intros out.
  - exists []. simpl. rewrite app_nil_r. split; [reflexivity | constructor].
  - destruct (Status_String_returns (SentryReport.Status r))
      as (name & Hname).
    simpl. rewrite Hname. simpl.
    destruct (IH (out ++ [ {| Report.Name := SentryReport.Name r;
                              Report.Duration :=
                                Duration_String (SentryReport.Duration r);
                              Report.Status := name;
                              Report.Error := err (SentryReport.Error r) |} ])%list)
      as (ds & Hds & Hall).
    eexists (_ :: ds). rewrite Hds, <- app_assoc. split; [reflexivity |].
    constructor; [| exact Hall].
    unfold displays. simpl. split; [reflexivity |]. split; [reflexivity |].
    split; [exact Hname |]. destruct (SentryReport.Error r); reflexivity.
Qed.

Lemma range_append_projects (reports : list SentryReport.t) :
  projects Duration_String reports (range_append Duration_String [] reports).
Proof.
  destruct (range_append_displays reports []) as (ds & Hds & Hall).
  exists ds. split; [exact Hds |]. split; [| exact Hall].
  symmetry. exact (Forall2_length _ _ _ Hall).
Qed.

(** C6. Each of the four per-kind methods returns (it never fails), and
    its result has the length of the checker's report list and is,
    element by element, the projection of it: Name kept, Duration
    rendered by [Duration.String], Status rendered by [Status.String],
    Error the message of the error, or the empty string for [nil]. *)
Theorem HealthChecks_projection (c : Component) (ctx : context) :
  projects Duration_String (InfluxHealthChecker.HealthChecks (influx c) ctx)
           (InfluxHealthChecks Duration_String c ctx) /\
  projects Duration_String (JaegerHealthChecker.HealthChecks (jaeger c) ctx)
           (JaegerHealthChecks Duration_String c ctx) /\
  projects Duration_String (RedisHealthChecker.HealthChecks (redis c) ctx)
           (RedisHealthChecks Duration_String c ctx) /\
  projects Duration_String (SentryHealthChecker.HealthChecks (sentry c) ctx)
           (SentryHealthChecks Duration_String c ctx).
Proof. repeat split; apply range_append_projects. Qed.

Lemma overall_total (reports : list SentryReport.t) :
  exists s : string, overall Duration_String reports = Some s.
Proof.
  unfold overall.
  destruct (range_append_displays reports []) as (ds & Hds & _).
  rewrite Hds. simpl. rewrite determineStatus_first_wins. eauto.
Qed.

(** The overall map: its keys are the four kind names, and the entry of
    a kind is computed from the reports of that kind's checker alone. *)
Lemma AllHealthChecks_entries (c : Component) (ctx : context) :
  exists m : gmap string string,
    AllHealthChecks Duration_String c ctx = Some m /\
    dom m = ({[ "influx"; "jaeger"; "redis"; "sentry" ]} : gset string) /\
    forall k : Kind,
      m !! kind_name k = overall Duration_String (checker_reports k c ctx).
Proof.
  destruct (overall_total (checker_reports Influx c ctx)) as (si & Hi).
  destruct (overall_total (checker_reports Jaeger c ctx)) as (sj & Hj).
  destruct (overall_total (checker_reports Redis c ctx)) as (sr & Hr).
  destruct (overall_total (checker_reports Sentry c ctx)) as (ss & Hs).
  exists (<["sentry" := ss]> (<["redis" := sr]> (<["jaeger" := sj]>
           (<["influx" := si]> ∅)))).
  split; [| split].
  - unfold AllHealthChecks, InfluxHealthChecks, JaegerHealthChecks,
      RedisHealthChecks, SentryHealthChecks.
    unfold overall, checker_reports in Hi, Hj, Hr, Hs.
    destruct (range_append _ [] (InfluxHealthChecker.HealthChecks _ ctx));
      [simpl in Hi |- *; rewrite Hi; simpl | discriminate].
    destruct (range_append _ [] (JaegerHealthChecker.HealthChecks _ ctx));
      [simpl in Hj |- *; rewrite Hj; simpl | discriminate].
    destruct (range_append _ [] (RedisHealthChecker.HealthChecks _ ctx));
      [simpl in Hr |- *; rewrite Hr; simpl | discriminate].
    destruct (range_append _ [] (SentryHealthChecker.HealthChecks _ ctx));
      [simpl in Hs |- *; rewrite Hs; simpl | discriminate].
    reflexivity.
  - rewrite !dom_insert_L, dom_empty_L. set_solver.
  - intros []; simpl kind_name.
    + rewrite Hi. now simplify_map_eq.
    + rewrite Hj. now simplify_map_eq.
    + rewrite Hr. now simplify_map_eq.
    + rewrite Hs. now simplify_map_eq.
Qed.

(** C5. The overall map has exactly the keys "influx", "jaeger", "redis"
    and "sentry"; and of two components that differ only in what the
    checker of one kind returns, the maps agree on the other three
    kinds. *)
Theorem AllHealthChecks_independent (c c' : Component) (ctx : context)
    (k : Kind) :
  (forall k' : Kind,
      k' <> k -> checker_reports k' c ctx = checker_reports k' c' ctx) ->
  exists m m' : gmap string string,
    AllHealthChecks Duration_String c ctx = Some m /\
    AllHealthChecks Duration_String c' ctx = Some m' /\
    dom m = ({[ "influx"; "jaeger"; "redis"; "sentry" ]} : gset string) /\
    dom m' = ({[ "influx"; "jaeger"; "redis"; "sentry" ]} : gset string) /\
    forall k' : Kind, k' <> k -> m !! kind_name k' = m' !! kind_name k'.
Proof.
  intros Hsame.
  destruct (AllHealthChecks_entries c ctx) as (m & Hm & Hdom & Hent).
  destruct (AllHealthChecks_entries c' ctx) as (m' & Hm' & Hdom' & Hent').
  exists m, m'. repeat split; try assumption.
  intros k' Hk'. now rewrite Hent, Hent', (Hsame k' Hk').
Qed.

End AggregatorProperties.

(** ** Strings: occurrences and [strings.LastIndex] *)

Section StringFacts.

Local Open Scope nat_scope.
Local Open Scope string_scope.

Lemma append_cons (x : Ascii.ascii) (a b : string) :
  String x a ++ b = String x (a ++ b).
Proof. reflexivity. Qed.

Lemma append_nil_l (b : string) : "" ++ b = b.
Proof. reflexivity. Qed.

Lemma append_assoc (a b c : string) : (a ++ b) ++ c = a ++ (b ++ c).
Proof.
  induction a as [| x a IH]; [reflexivity |].
  now rewrite !append_cons, IH.
Qed.

Lemma append_nil_r (a : string) : a ++ "" = a.
Proof.
  induction a as [| x a IH]; [reflexivity |]. now rewrite append_cons, IH.
Qed.

Lemma length_append (a b : string) :
  String.length (a ++ b) = String.length a + String.length b.
Proof.
  induction a as [| x a IH]; [reflexivity |].
  rewrite append_cons. simpl. now rewrite IH.
Qed.

Lemma substring_head (t q : string) :
  String.substring 0 (String.length t) (t ++ q) = t.
Proof.
  induction t as [| x t IH].
  - rewrite append_nil_l. destruct q; reflexivity.
  - rewrite append_cons. simpl. now rewrite IH.
Qed.

Lemma substring_skip (p s : string) (n : nat) :
  String.substring (String.length p) n (p ++ s) = String.substring 0 n s.
Proof.
  induction p as [| x p IH]; [reflexivity |].
  rewrite append_cons. simpl. exact IH.
Qed.

(** An occurrence of [t] after the prefix [p] is read back by
    [substring] at the index [len(p)]. *)
Lemma substring_occurrence (p t q : string) :
  String.substring (String.length p) (String.length t) (p ++ t ++ q) = t.
Proof. rewrite substring_skip. apply substring_head. Qed.

Lemma substring_head_inv (t : string) :
  forall s : string,
    String.substring 0 (String.length t) s = t -> exists q, s = t ++ q.
Proof.
  induction t as [| x t IH]; intros s H.
  - exists s. reflexivity.
  - destruct s as [| y s]; simpl in H; [discriminate |].
    injection H as -> H. destruct (IH s H) as (q & ->).
    exists q. now rewrite append_cons.
Qed.

(** Conversely a match of [substring] at [i] splits the string there. *)
Lemma substring_occurrence_inv (t : string) (i : nat) :
  t <> "" ->
  forall s : string,
    String.substring i (String.length t) s = t ->
    exists q,
      s = String.substring 0 i s ++ t ++ q /\
      String.length (String.substring 0 i s) = i.
Proof.
  intros Ht. induction i as [| i IH]; intros s H.
  - destruct (substring_head_inv t s H) as (q & Hs).
    exists q. replace (String.substring 0 0 s) with "" by (destruct s; reflexivity).
    split; [exact Hs | reflexivity].
  - destruct s as [| y s].
    + simpl in H. congruence.
    + simpl in H. destruct (IH s H) as (q & Hs & Hlen).
      exists q. simpl. rewrite Hlen, append_cons. split; [| reflexivity].
      f_equal. exact Hs.
Qed.

(** [LastIndex_from] returns the greatest matching index not above [i],
    and -1 when there is none. *)
Lemma LastIndex_from_spec (s t : string) (i : nat) :
  (LastIndex_from s t i = (-1)%Z /\
   forall j, j <= i -> String.substring j (String.length t) s <> t) \/
  (exists k,
      LastIndex_from s t i = Z.of_nat k /\ k <= i /\
      String.substring k (String.length t) s = t /\
      forall j, k < j <= i -> String.substring j (String.length t) s <> t).
Proof.
  induction i as [| i IH]; simpl.
  - destruct (String.eqb_spec (String.substring 0 (String.length t) s) t)
      as [Heq | Hne].
    + right. exists 0. repeat split; [lia | exact Heq | intros j Hj; lia].
    + left. split; [reflexivity |]. intros j Hj.
      replace j with 0 by lia. exact Hne.
  - destruct (String.eqb_spec (String.substring (S i) (String.length t) s) t)
      as [Heq | Hne].
    + right. exists (S i).
      repeat split; [lia | exact Heq | intros j Hj; lia].
    + destruct IH as [[Hnone Hall] | (k & Hk & Hle & Hat & Hlast)].
      * left. split; [exact Hnone |]. intros j Hj.
        destruct (decide (j = S i)) as [-> | Hji]; [exact Hne |].
        apply Hall. lia.
      * right. exists k. repeat split; [exact Hk | lia | exact Hat |].
        intros j Hj.
        destruct (decide (j = S i)) as [-> | Hji]; [exact Hne |].
        apply Hlast. lia.
Qed.

(** Every occurrence starts at an index [LastIndex] tries. *)
Lemma occurrence_bound (p t q : string) :
  String.length p
    <= String.length (p ++ t ++ q) - String.length t /\
  String.length t <= String.length (p ++ t ++ q).
Proof. rewrite !length_append. lia. Qed.

Lemma LastIndex_absent (s t : string) :
  strings_LastIndex s t = (-1)%Z -> ~ occurs t s.
Proof.
  unfold strings_LastIndex. intros H (p & q & ->).
  destruct (occurrence_bound p t q) as [Hp Ht].
  destruct (Nat.ltb_spec (String.length (p ++ t ++ q)) (String.length t))
    as [Hlt | _]; [lia |].
  destruct (LastIndex_from_spec (p ++ t ++ q) t
              (String.length (p ++ t ++ q) - String.length t))
    as [[_ Hall] | (k & Hk & _)]; [| lia].
  apply (Hall (String.length p) Hp). apply substring_occurrence.
Qed.

Lemma LastIndex_found (s t : string) (idx : Z) :
  t <> "" ->
  strings_LastIndex s t = idx -> idx <> (-1)%Z ->
  exists q,
    s = String.substring 0 (Z.to_nat idx) s ++ t ++ q /\
    forall p' q',
      s = p' ++ t ++ q' ->
      String.length p'
        <= String.length (String.substring 0 (Z.to_nat idx) s).
Proof.
  unfold strings_LastIndex. intros Ht H Hidx.
  destruct (Nat.ltb_spec (String.length s) (String.length t))
    as [Hlt | Hge]; [congruence |].
  destruct (LastIndex_from_spec s t (String.length s - String.length t))
    as [[Hnone _] | (k & Hk & Hle & Hat & Hlast)]; [congruence |].
  rewrite Hk in H. subst idx. rewrite Nat2Z.id.
  destruct (substring_occurrence_inv t k Ht s Hat) as (q & Hs & Hlen).
  exists q. split; [exact Hs |].
  intros p' q' Hs'. rewrite Hlen.
  destruct (le_lt_dec (String.length p') k) as [Hok | Hgt]; [exact Hok |].
  exfalso. apply (Hlast (String.length p')).
  - split; [exact Hgt |]. rewrite Hs' at 1. apply occurrence_bound.
  - rewrite Hs' at 1. apply substring_occurrence.
Qed.

Lemma occurs_LastIndex (s t : string) :
  t <> "" -> (occurs t s <-> strings_LastIndex s t <> (-1)%Z).
Proof.
  intros Ht. split.
  - intros Hocc Hidx. exact (LastIndex_absent s t Hidx Hocc).
  - intros Hidx.
    destruct (LastIndex_found s t _ Ht eq_refl Hidx) as (q & Hs & _).
    eexists _, q. exact Hs.
Qed.

End StringFacts.

(** ** The health URL *)

(** C7. When the marker "/api/" occurs in the DSN, the health URL is the
    prefix of the DSN up to the last occurrence of the marker followed by
    "/_health"; when the marker does not occur, it is the empty string. *)
Theorem healthURL_resolved (dsn : string) :
  (occurs "/api/" dsn ->
   exists p q : string,
     dsn = (p ++ "/api/" ++ q)%string /\
     (forall p' q' : string,
         dsn = (p' ++ "/api/" ++ q')%string ->
         (String.length p' <= String.length p)%nat) /\
     healthURL dsn = (p ++ "/_health")%string) /\
  (~ occurs "/api/" dsn -> healthURL dsn = "").
Proof.
  assert (Hm : "/api/" <> "") by discriminate.
  unfold healthURL. split.
  - intros Hocc. apply (occurs_LastIndex dsn "/api/" Hm) in Hocc.
    destruct (LastIndex_found dsn "/api/" _ Hm eq_refl Hocc) as (q & Hs & Hlast).
    destruct (Z.eqb_spec (strings_LastIndex dsn "/api/") (-1)) as [Heq | _];
      [contradiction |].
    simpl negb. cbv iota.
    exists (String.substring 0 (Z.to_nat (strings_LastIndex dsn "/api/")) dsn), q.
    split; [exact Hs |]. split; [exact Hlast | reflexivity].
  - intros Hno.
    destruct (Z.eqb_spec (strings_LastIndex dsn "/api/") (-1)) as [_ | Hne];
      [reflexivity |].
    exfalso. apply Hno. now apply (occurs_LastIndex dsn "/api/" Hm).
Qed.

Lemma healthURL_resolved_witness :
  occurs "/api/" "https://key@sentry.io/api/12" /\
  ~ occurs "/api/" "https://key@sentry.io/12" /\
  (exists p q : string,
      "https://key@sentry.io/api/12" = (p ++ "/api/" ++ q)%string /\
      (forall p' q' : string,
          "https://key@sentry.io/api/12" = (p' ++ "/api/" ++ q')%string ->
          (String.length p' <= String.length p)%nat) /\
      healthURL "https://key@sentry.io/api/12" = (p ++ "/_health")%string) /\
  healthURL "https://key@sentry.io/12" = "".
Proof.
  assert (Hyes : occurs "/api/" "https://key@sentry.io/api/12")
    by (exists "https://key@sentry.io", "12"; reflexivity).
  assert (Hno : ~ occurs "/api/" "https://key@sentry.io/12")
    by (apply LastIndex_absent; reflexivity).
  split; [exact Hyes | split; [exact Hno | split]].
  - exact (proj1 (healthURL_resolved "https://key@sentry.io/api/12") Hyes).
  - exact (proj2 (healthURL_resolved "https://key@sentry.io/12") Hno).
Defined.

Example healthURL_sentry_dsn :
  healthURL "https://key@sentry.io/api/12" = "https://key@sentry.io/_health".
Proof. reflexivity. Qed.

Example healthURL_last_marker :
  healthURL "https://host/api/x/api/12" = "https://host/api/x/_health".
Proof. reflexivity. Qed.

(** ** The sentry module *)

(** C3. A module built with [enabled = false] returns reports that all
    have Status Deactivated, zero Duration and a nil Error; the world is
    left as it was, so no [Get] was issued (nor any other effect), and the
    reports are the same whatever the HTTP client and the sentry client. *)
Theorem HealthChecks_disabled (sentry : sentryClient)
    (httpClient : sentryHTTPClient) (ctx : context) (w : world) :
  exists reports : list SentryReport.t,
    HealthChecks (NewSentryModule sentry httpClient false) ctx w
      = (Returned reports, w) /\
    reports <> [] /\
    Forall deactivated_report reports /\
    forall (sentry' : sentryClient) (httpClient' : sentryHTTPClient),
      HealthChecks (NewSentryModule sentry' httpClient' false) ctx w
        = (Returned reports, w).
Proof.
  eexists. split; [reflexivity |]. split; [discriminate |].
  split; [| reflexivity].
  constructor; [| constructor]. repeat split.
Qed.

(** *** What [pingSentry] returns, case by case *)

Lemma pingSentry_Get_error (dsn : string) (c : sentryHTTPClient) (w : world)
    (res : option http.Response) (e : error) :
  answer c (healthURL dsn) = (res, Some e) ->
  pingSentry dsn c w =
    (Returned (Some e),
     {| clock := clock w + elapsed c (healthURL dsn);
        trace := trace w ++ [EvGet (healthURL dsn)] |}).
Proof.
  intros Hans. unfold pingSentry, bind, Get. rewrite Hans. reflexivity.
Qed.

Lemma pingSentry_no_response (dsn : string) (c : sentryHTTPClient) (w : world) :
  answer c (healthURL dsn) = (None, None) ->
  pingSentry dsn c w =
    (Panicked,
     {| clock := clock w + elapsed c (healthURL dsn);
        trace := trace w ++ [EvGet (healthURL dsn)] |}).
Proof.
  intros Hans. unfold pingSentry, bind, Get. rewrite Hans. reflexivity.
Qed.

Lemma pingSentry_no_body (dsn : string) (c : sentryHTTPClient) (w : world)
    (r : http.Response) :
  answer c (healthURL dsn) = (Some r, None) ->
  http.Body r = None ->
  pingSentry dsn c w =
    (Panicked,
     {| clock := clock w + elapsed c (healthURL dsn);
        trace := trace w ++ [EvGet (healthURL dsn)] |}).
Proof.
  intros Hans Hbody. unfold pingSentry, bind, Get. rewrite Hans.
  unfold defer_Body_Close. rewrite Hbody. reflexivity.
Qed.

Lemma pingSentry_response (dsn : string) (c : sentryHTTPClient) (w : world)
    (r : http.Response) (b : http.ReadCloser) :
  answer c (healthURL dsn) = (Some r, None) ->
  http.Body r = Some b ->
  pingSentry dsn c w =
    (Returned (verdict r b),
     {| clock := clock w + elapsed c (healthURL dsn);
        trace := ((trace w ++ [EvGet (healthURL dsn)]) ++ reads r b)
                   ++ [EvClose b] |}).
Proof.
  intros Hans Hbody. unfold pingSentry, bind, Get, verdict, reads.
  rewrite Hans. unfold defer_Body_Close. rewrite Hbody.
  unfold deferring, bind, ret, Body_Close, ioutil_ReadAll, emit, bind, ret.
  simpl.
  destruct (negb (http.StatusCode r =? http.StatusOK)).
  - simpl. now rewrite app_nil_r.
  - rewrite Hbody. simpl. destruct (http.readErr b); simpl; [reflexivity |].
    destruct (String.eqb (http.data b) "ok"); reflexivity.
Qed.

(** *** Classification of the ping outcome *)

(** The report of an enabled module once [pingSentry] has returned. *)
Lemma sentryPingCheck_enabled (m : SentryModule) (w w' : world)
    (e : option error) :
  enabled m = true ->
  pingSentry (URL (sentry_client m)) (httpClient m) w = (Returned e, w') ->
  sentryPingCheck m w =
    (Returned
       {| SentryReport.Name := "ping";
          SentryReport.Duration := clock w' - clock w;
          SentryReport.Status := match e with Some _ => KO | None => OK end;
          SentryReport.Error :=
            match e with
            | Some e => Some (Wrap e "could not ping sentry")
            | None => None
            end |},
     w').
Proof.
  intros Hen Hping. unfold sentryPingCheck. rewrite Hen.
  unfold bind, time_Now, time_Since. cbv beta iota delta [negb].
  rewrite Hping. destruct e; reflexivity.
Qed.

Lemma mentions_Errorf (e : error) (pre s msg : string) :
  e = Wrap (Errorf pre s) msg -> mentions (Some e) s.
Proof.
  intros ->. exists (Wrap (Errorf pre s) msg). split; [reflexivity |].
  exists (msg ++ ": " ++ pre)%string, "". simpl.
  now rewrite append_nil_r, !append_assoc.
Qed.

(** C4, as stated, fails: [Get] gives no error, the status code is 200
    and the bytes of the body are exactly "ok", but reading the body ends
    in an error, and the report is KO with that error, which is neither
    the claimed OK nor an error that shows the body. *)
Lemma sentryPingCheck_read_error :
  exists (rep : SentryReport.t) (w' : world),
    sentryPingCheck truncating_module (mkWorld 0 []) = (Returned rep, w') /\
    got truncating_module = (Some truncated_ok, None) /\
    SentryReport.Status rep = KO /\
    SentryReport.Error rep
      = Some (Wrap (errorString "unexpected EOF") "could not ping sentry") /\
    ~ mentions (SentryReport.Error rep) "ok" /\
    ~ classified_as_claimed (got truncating_module) rep.
Proof.
  exists {| SentryReport.Name := "ping";
            SentryReport.Duration := 5;
            SentryReport.Status := KO;
            SentryReport.Error :=
              Some (Wrap (errorString "unexpected EOF")
                      "could not ping sentry") |}.
  exists {| clock := 5;
            trace := [EvGet "https://key@sentry.io/_health";
                      EvReadAll truncated_body;
                      EvClose truncated_body] |}.
  split; [reflexivity |]. split; [reflexivity |].
  split; [reflexivity |]. split; [reflexivity |]. split.
  - intros (e' & He' & Hocc). injection He' as <-.
    revert Hocc. apply LastIndex_absent. reflexivity.
  - intros [Hst _]. discriminate Hst.
Qed.

(** C4, amended. For an enabled module whose client's [Get] returns an
    error, or a response that has a body, the ping sub-check returns a
    report named "ping" that classifies the outcome as: an error from
    [Get], KO wrapping it; else a status code other than 200, KO with an
    error that shows the status; else an error while reading the body, KO
    wrapping it; else a body other than "ok", KO with an error that shows
    the body; else OK with a nil error. *)
Theorem sentryPingCheck_classifies (m : SentryModule) (w : world) :
  enabled m = true ->
  answered (got m) = true ->
  exists (rep : SentryReport.t) (w' : world),
    sentryPingCheck m w = (Returned rep, w') /\
    SentryReport.Name rep = "ping" /\
    classified (got m) rep.
Proof.
  intros Hen Hgot. unfold got in *.
  destruct (answer (httpClient m) (healthURL (URL (sentry_client m))))
    as [res [e |]] eqn:Hans.
  - eexists. eexists.
    split; [exact (sentryPingCheck_enabled m w _ _ Hen
                     (pingSentry_Get_error _ _ w res e Hans)) |].
    split; [reflexivity |]. simpl.
    destruct res; (split; [reflexivity | exists "could not ping sentry"; reflexivity]).
  - destruct res as [r |]; [| discriminate Hgot].
    simpl in Hgot. destruct (http.Body r) as [b |] eqn:Hbody;
      [| discriminate Hgot].
    eexists. eexists.
    split; [exact (sentryPingCheck_enabled m w _ _ Hen
                     (pingSentry_response _ _ w r b Hans Hbody)) |].
    split; [reflexivity |]. unfold classified, verdict. rewrite Hbody.
    destruct (negb (http.StatusCode r =? http.StatusOK)).
    + split; [reflexivity |]. eapply mentions_Errorf. reflexivity.
    + destruct (http.readErr b) as [e |].
      * split; [reflexivity |]. exists "could not ping sentry". reflexivity.
      * destruct (String.eqb (http.data b) "ok"); simpl.
        -- split; reflexivity.
        -- split; [reflexivity |]. eapply mentions_Errorf. reflexivity.
Qed.

Lemma sentryPingCheck_classifies_witness :
  enabled mismatching_module = true /\
  answered (got mismatching_module) = true /\
  exists (rep : SentryReport.t) (w' : world),
    sentryPingCheck mismatching_module (mkWorld 0 []) = (Returned rep, w') /\
    SentryReport.Name rep = "ping" /\
    classified (got mismatching_module) rep.
Proof.
  split; [reflexivity |]. split; [reflexivity |].
  apply sentryPingCheck_classifies; reflexivity.
Defined.

(** *** Release of the response body *)

(** C9, as stated, fails: when [Get] returns a response together with an
    error, [pingSentry] returns the error at once, before the [defer] is
    reached, and the body of that response is never closed. *)
Lemma pingSentry_error_leaves_body_open :
  exists w' : world,
    pingSentry "https://key@sentry.io/api/12" redirect_client (mkWorld 0 [])
      = (Returned (Some (errorString "stopped after 10 redirects")), w') /\
    answer redirect_client (healthURL "https://key@sentry.io/api/12")
      = (Some redirected,
         Some (errorString "stopped after 10 redirects")) /\
    http.Body redirected = Some redirected_body /\
    EvClose redirected_body ∉ trace w'.
Proof.
  exists {| clock := 5; trace := [EvGet "https://key@sentry.io/_health"] |}.
  split; [reflexivity |]. split; [reflexivity |]. split; [reflexivity |].
  intros Hin. apply list_elem_of_singleton in Hin. discriminate Hin.
Qed.

(** C9, amended. Whenever [Get] returns a response that has a body and
    no error, [pingSentry] returns, and on each of its exit paths (status
    other than 200, error while reading the body, body other than "ok",
    success) the trace it leaves is: the [Get], what was read, and last
    the [Close] of that response's body, which happens exactly once. *)
Theorem pingSentry_closes_body (dsn : string) (c : sentryHTTPClient)
    (w : world) (r : http.Response) (b : http.ReadCloser) :
  answer c (healthURL dsn) = (Some r, None) ->
  http.Body r = Some b ->
  exists (e : option error) (w' : world) (mid : list event),
    pingSentry dsn c w = (Returned e, w') /\
    trace w' = (trace w ++ EvGet (healthURL dsn) :: mid
                  ++ [EvClose b])%list /\
    EvClose b ∉ mid.
Proof.
  intros Hans Hbody. exists (verdict r b). eexists. exists (reads r b).
  split; [exact (pingSentry_response dsn c w r b Hans Hbody) |].
  split.
  - simpl. now rewrite <- !app_assoc.
  - unfold reads. destruct (negb (http.StatusCode r =? http.StatusOK)).
    + apply not_elem_of_nil.
    + intros Hin. apply list_elem_of_singleton in Hin. discriminate Hin.
Qed.

Lemma pingSentry_closes_body_witness :
  answer (httpClient truncating_module)
    (healthURL "https://key@sentry.io/api/12") = (Some truncated_ok, None) /\
  http.Body truncated_ok = Some truncated_body /\
  exists (e : option error) (w' : world) (mid : list event),
    pingSentry "https://key@sentry.io/api/12" (httpClient truncating_module)
      (mkWorld 0 []) = (Returned e, w') /\
    trace w' = ([] ++ EvGet (healthURL "https://key@sentry.io/api/12") :: mid
                  ++ [EvClose truncated_body])%list /\
    EvClose truncated_body ∉ mid.
Proof.
  split; [reflexivity |]. split; [reflexivity |].
  apply (pingSentry_closes_body "https://key@sentry.io/api/12"
           (httpClient truncating_module) (mkWorld 0 []) truncated_ok
           truncated_body); reflexivity.
Defined.

(** *** The reference scenarios of the specification *)

Example scenario_A :
  report_of (module_answering (Some (response "200 OK" 200 "ok"), None))
  = Some (SentryReport.mk "ping" 5 OK None).
Proof. reflexivity. Qed.

Example scenario_B :
  (SentryReport.Status <$>
     report_of (module_answering (Some (response "200 OK" 200 "not ok"), None)),
   err <$> (SentryReport.Error <$>
     report_of (module_answering (Some (response "200 OK" 200 "not ok"), None))))
  = (Some KO,
     Some "could not ping sentry: response should be 'ok' but is: not ok").
Proof. reflexivity. Qed.

Example scenario_C :
  (SentryReport.Status <$>
     report_of (module_answering
                  (Some (response "503 Service Unavailable" 503 ""), None)),
   err <$> (SentryReport.Error <$>
     report_of (module_answering
                  (Some (response "503 Service Unavailable" 503 ""), None))))
  = (Some KO,
     Some "could not ping sentry: http response status code: 503 Service Unavailable").
Proof. reflexivity. Qed.

Example scenario_D :
  (SentryReport.Status <$>
     report_of (module_answering (None, Some (errorString "connection refused"))),
   err <$> (SentryReport.Error <$>
     report_of (module_answering (None, Some (errorString "connection refused")))))
  = (Some KO, Some "could not ping sentry: connection refused").
Proof. reflexivity. Qed.

(** [Get] returning neither a response nor an error: [res.StatusCode]
    dereferences nil. *)
Example no_response_panics :
  report_of (module_answering (None, None)) = None.
Proof. reflexivity. Qed.

(** [Get] returning, without an error, a response that has no body:
    [defer res.Body.Close()] dereferences nil. *)
Example no_body_panics :
  report_of (module_answering (Some bodiless, None)) = None.
Proof. reflexivity. Qed.

(** *** Scenario E and the independence of the kinds *)

Example scenario_E :
  (fun m : gmap string string =>
     (m !! "influx", m !! "jaeger", m !! "redis", m !! "sentry"))
    <$> AllHealthChecks fixed_rendering sentry_ko tt
  = Some (Some "OK", Some "OK", Some "OK", Some "KO").
Proof. vm_compute. reflexivity. Qed.

Lemma AllHealthChecks_independent_witness :
  (forall k' : Kind,
      k' <> Sentry ->
      checker_reports k' all_ok tt = checker_reports k' sentry_ko tt) /\
  exists m m' : gmap string string,
    AllHealthChecks fixed_rendering all_ok tt = Some m /\
    AllHealthChecks fixed_rendering sentry_ko tt = Some m' /\
    dom m = ({[ "influx"; "jaeger"; "redis"; "sentry" ]} : gset string) /\
    dom m' = ({[ "influx"; "jaeger"; "redis"; "sentry" ]} : gset string) /\
    forall k' : Kind, k' <> Sentry -> m !! kind_name k' = m' !! kind_name k'.
Proof.
  assert (H : forall k' : Kind,
             k' <> Sentry ->
             checker_reports k' all_ok tt = checker_reports k' sentry_ko tt)
    by (intros [] Hk; [reflexivity | reflexivity | reflexivity | congruence]).
  split; [exact H |].
  apply (AllHealthChecks_independent fixed_rendering all_ok sentry_ko tt Sentry H).
Defined.

(** ** Further properties of [Status.String] and [determineStatus] *)

Lemma Status_String_name_inv (s : Status) (name : string) :
  Status_String s = Some name ->
  (name = "OK" <-> s = OK) /\
  (name = "KO" <-> s = KO) /\
  (name = "Degraded" <-> s = Degraded) /\
  (name = "Deactivated" <-> s = Deactivated).
Proof.
  intros Hname.
  destruct (decide (OK <= s <= Deactivated)) as [Hin | Hout].
  - unfold OK, Deactivated in Hin.
    assert (Hcases : s = 0 \/ s = 1 \/ s = 2 \/ s = 3) by lia.
    destruct Hcases as [-> | [-> | [-> | ->]]];
      injection Hname as <-; unfold OK, KO, Degraded, Deactivated;
      repeat split; intros H; first [discriminate H | reflexivity].
  - rewrite Status_String_out_of_range in Hname
      by (unfold OK, Deactivated in *; lia).
    injection Hname as <-. unfold OK, KO, Degraded, Deactivated in *.
    repeat split; intros H; first [discriminate H | lia].
Qed.

(** X1. The names of the four defined statuses are pairwise distinct and
    none of them is the name of another integer: a defined status is
    recovered from its name. *)
Theorem Status_String_injective (s s' : Status) :
  OK <= s <= Deactivated ->
  Status_String s = Status_String s' ->
  s = s'.
Proof.
  intros Hin Heq.
  destruct (Status_String_returns s) as (name & Hname).
  rewrite Hname in Heq. symmetry in Heq.
  destruct (Status_String_name_inv s name Hname) as (H0 & H1 & H2 & H3).
  destruct (Status_String_name_inv s' name Heq) as (H0' & H1' & H2' & H3').
  unfold OK, KO, Degraded, Deactivated in *.
  assert (Hcases : s = 0 \/ s = 1 \/ s = 2 \/ s = 3) by lia.
  destruct Hcases as [Hs | [Hs | [Hs | Hs]]]; rewrite Hs.
  - symmetry. apply H0', H0, Hs.
  - symmetry. apply H1', H1, Hs.
  - symmetry. apply H2', H2, Hs.
  - symmetry. apply H3', H3, Hs.
Qed.

Lemma Status_String_injective_witness :
  OK <= 2 <= Deactivated /\
  Status_String 2 = Status_String Degraded /\
  2 = Degraded.
Proof.
  assert (Hin : OK <= 2 <= Deactivated) by (unfold OK, Deactivated; lia).
  split; [exact Hin | split; [reflexivity |]].
  apply Status_String_injective; [exact Hin | reflexivity].
Defined.

(** X2. The overall status is always the name of one of the four defined
    statuses, whatever strings the reports carry: never "Unknown" and
    never a string copied from an unrecognised report. *)
Theorem determineStatus_range (reports : list Report.t) :
  determineStatus reports = Some "OK" \/
  determineStatus reports = Some "KO" \/
  determineStatus reports = Some "Degraded" \/
  determineStatus reports = Some "Deactivated".
Proof.
  rewrite determineStatus_first_wins. unfold first_wins.
  destruct (List.find short_circuits reports) as [r |] eqn:Hfind.
  - apply find_some in Hfind as [_ Hsc]. unfold short_circuits in Hsc.
    apply orb_true_iff in Hsc as [Hd | Hk]; apply String.eqb_eq in Hd || apply String.eqb_eq in Hk.
    + rewrite Hd. right. right. right. reflexivity.
    + rewrite Hk. right. left. reflexivity.
  - destruct (has_status "Degraded" reports).
    + right. right. left. reflexivity.
    + left. reflexivity.
Qed.

Lemma determineStatus_loop_app (l1 l2 : list Report.t) :
  forall degraded : bool,
    determineStatus_loop degraded (l1 ++ l2) =
      match List.find short_circuits l1 with
      | Some r => Some (Report.Status r)
      | None =>
          determineStatus_loop (degraded || has_status "Degraded" l1) l2
      end.
Proof.
  induction l1 as [| r rest IH]; intros degraded.
  - simpl. now rewrite orb_false_r.
  - rewrite <- app_comm_cons, determineStatus_loop_cons, has_status_cons.
    simpl List.find.
    replace (short_circuits r) with
      (String.eqb (Report.Status r) "Deactivated"
       || String.eqb (Report.Status r) "KO") by reflexivity.
    destruct (String.eqb (Report.Status r) "Deactivated") eqn:Hd.
    + apply String.eqb_eq in Hd. simpl. now rewrite Hd.
    + destruct (String.eqb (Report.Status r) "KO") eqn:Hk.
      * apply String.eqb_eq in Hk. simpl. now rewrite Hk.
      * simpl orb.
        destruct (String.eqb (Report.Status r) "Degraded") eqn:Hg.
        -- rewrite IH. simpl. now rewrite orb_true_r.
        -- rewrite IH. reflexivity.
Qed.

(** X3. The overall status of a concatenation is determined by the
    overall statuses of the two parts: a Deactivated or KO first part
    stands; a Degraded first part is overridden only by a second part
    worse than OK; an OK first part leaves the second part to decide. *)
Theorem determineStatus_app (l1 l2 : list Report.t) :
  exists a b : string,
    determineStatus l1 = Some a /\
    determineStatus l2 = Some b /\
    determineStatus (l1 ++ l2) = Some (followed_by a b).
Proof.
  exists (first_wins l1), (first_wins l2).
  split; [apply determineStatus_first_wins |].
  split; [apply determineStatus_first_wins |].
  unfold determineStatus. rewrite determineStatus_loop_app.
  unfold first_wins at 1.
  destruct (List.find short_circuits l1) as [r |] eqn:Hfind.
  - apply find_some in Hfind as [_ Hsc]. unfold followed_by.
    unfold short_circuits in Hsc. now rewrite Hsc.
  - simpl orb. rewrite determineStatus_loop_first_wins. unfold first_wins.
    destruct (has_status "Degraded" l1); simpl.
    + destruct (List.find short_circuits l2) as [r |] eqn:Hfind2.
      * apply find_some in Hfind2 as [_ Hsc]. unfold short_circuits in Hsc.
        apply orb_true_iff in Hsc as [Hd | Hk];
          apply String.eqb_eq in Hd || apply String.eqb_eq in Hk.
        -- now rewrite Hd.
        -- now rewrite Hk.
      * destruct (has_status "Degraded" l2); reflexivity.
    + reflexivity.
Qed.

(** X4. Reports whose status string the [switch] has no case for can be
    dropped, all of them or any of them, without changing the overall
    status. *)
Theorem determineStatus_filter (keep : Report.t -> bool)
    (reports : list Report.t) :
  (forall r : Report.t, escalates r = true -> keep r = true) ->
  determineStatus (List.filter keep reports) = determineStatus reports.
Proof.
  intros Hkeep. unfold determineStatus. generalize false.
  induction reports as [| r rest IH]; intros degraded; [reflexivity |].
  simpl List.filter. destruct (keep r) eqn:Hk.
  - rewrite !determineStatus_loop_cons, !IH. reflexivity.
  - rewrite determineStatus_loop_cons with (r := r), IH.
    destruct (escalates r) eqn:He; [rewrite (Hkeep r He) in Hk; discriminate |].
    unfold escalates, short_circuits in He.
    apply orb_false_iff in He as [Hsc Hg].
    apply orb_false_iff in Hsc as [Hd Hko].
    now rewrite Hd, Hko, Hg.
Qed.

Lemma determineStatus_filter_witness :
  (forall r : Report.t, escalates r = true -> escalates r = true) /\
  determineStatus
    (List.filter escalates [sample "Unknown"; sample "Degraded"; sample "up"])
  = determineStatus [sample "Unknown"; sample "Degraded"; sample "up"].
Proof.
  split; [intros r H; exact H |].
  apply determineStatus_filter. intros r H. exact H.
Defined.

Lemma find_short_circuits_none (l : list Report.t) :
  List.find short_circuits l = None <->
  Forall (fun r => short_circuits r = false) l.
Proof.
  induction l as [| r rest IH]; simpl.
  - split; [constructor | reflexivity].
  - destruct (short_circuits r) eqn:Hsc.
    + split; [discriminate |]. intros H. inversion H; congruence.
    + rewrite IH. split.
      * intros H. constructor; assumption.
      * intros H. inversion H; assumption.
Qed.

Lemma determineStatus_OK_iff (l : list Report.t) :
  determineStatus l = Some "OK" <-> Forall (fun r => escalates r = false) l.
Proof.
  split.
  - rewrite determineStatus_first_wins. unfold first_wins.
    destruct (List.find short_circuits l) as [r |] eqn:Hfind.
    + apply find_some in Hfind as [_ Hsc]. intros [= Heq].
      unfold short_circuits in Hsc. rewrite Heq in Hsc. discriminate.
    + apply find_short_circuits_none in Hfind.
      destruct (has_status "Degraded" l) eqn:Hdeg; [discriminate |].
      intros _. apply has_status_false in Hdeg.
      rewrite Forall_forall in *. intros r Hin. unfold escalates.
      rewrite (Hfind r Hin). simpl. apply String.eqb_neq. now apply Hdeg.
  - intros H. unfold determineStatus.
    now rewrite determineStatus_loop_skip.
Qed.

Lemma determineStatus_Degraded_iff (l : list Report.t) :
  determineStatus l = Some "Degraded" <->
  Forall (fun r => short_circuits r = false) l /\
  Exists (fun r => Report.Status r = "Degraded") l.
Proof.
  rewrite determineStatus_first_wins. unfold first_wins. split.
  - destruct (List.find short_circuits l) as [r |] eqn:Hfind.
    + apply find_some in Hfind as [_ Hsc]. intros [= Heq].
      unfold short_circuits in Hsc. rewrite Heq in Hsc. discriminate.
    + apply find_short_circuits_none in Hfind.
      destruct (has_status "Degraded" l) eqn:Hdeg; [| discriminate].
      intros _. split; [exact Hfind |].
      apply has_status_true in Hdeg as (r & Hin & Heq).
      apply Exists_exists. eauto.
  - intros [Hnone Hsome]. apply find_short_circuits_none in Hnone.
    rewrite Hnone. apply Exists_exists in Hsome as (r & Hin & Heq).
    assert (Hdeg : has_status "Degraded" l = true)
      by (apply has_status_true; eauto).
    now rewrite Hdeg.
Qed.

Lemma Forall2_Forall_iff {A B} (R : A -> B -> Prop) (P : A -> Prop)
    (Q : B -> Prop) (l : list A) (k : list B) :
  (forall x y, R x y -> (P x <-> Q y)) ->
  Forall2 R l k -> (Forall P l <-> Forall Q k).
Proof.
  intros HR Hall. induction Hall as [| x y l k Hxy _ IH].
  - split; constructor.
  - split; intros H; inversion H; subst; constructor;
      solve [now apply (HR x y Hxy) | now apply IH].
Qed.

Lemma Forall2_Exists_iff {A B} (R : A -> B -> Prop) (P : A -> Prop)
    (Q : B -> Prop) (l : list A) (k : list B) :
  (forall x y, R x y -> (P x <-> Q y)) ->
  Forall2 R l k -> (Exists P l <-> Exists Q k).
Proof.
  intros HR Hall. induction Hall as [| x y l k Hxy _ IH].
  - split; intros H; inversion H.
  - split; intros H; inversion H; subst;
      solve [ apply Exists_cons_hd; now apply (HR x y Hxy)
            | apply Exists_cons_tl; now apply IH ].
Qed.

Section AggregatorFurther.

Variable Duration_String : Z -> string.

Lemma displays_healthy (r : SentryReport.t) (d : Report.t) :
  displays Duration_String r d -> (healthy r <-> escalates d = false).
Proof.
  intros (_ & _ & Hst & _).
  destruct (Status_String_name_inv _ _ Hst) as (_ & Hko & Hdeg & Hdea).
  unfold healthy, escalates, short_circuits.
  rewrite !orb_false_iff, !String.eqb_neq. tauto.
Qed.

Lemma displays_short_circuits (r : SentryReport.t) (d : Report.t) :
  displays Duration_String r d ->
  (SentryReport.Status r <> KO /\ SentryReport.Status r <> Deactivated
   <-> short_circuits d = false).
Proof.
  intros (_ & _ & Hst & _).
  destruct (Status_String_name_inv _ _ Hst) as (_ & Hko & _ & Hdea).
  unfold short_circuits.
  rewrite !orb_false_iff, !String.eqb_neq. tauto.
Qed.

Lemma displays_Degraded (r : SentryReport.t) (d : Report.t) :
  displays Duration_String r d ->
  (SentryReport.Status r = Degraded <-> Report.Status d = "Degraded").
Proof.
  intros (_ & _ & Hst & _).
  destruct (Status_String_name_inv _ _ Hst) as (_ & _ & Hdeg & _).
  tauto.
Qed.

Lemma overall_displays (reports : list SentryReport.t) :
  exists ds : list Report.t,
    Forall2 (displays Duration_String) reports ds /\
    overall Duration_String reports = determineStatus ds.
Proof.
  destruct (range_append_displays Duration_String reports [])
    as (ds & Hds & Hall).
  exists ds. split; [exact Hall |]. unfold overall. now rewrite Hds.
Qed.

(** X5. In the overall map a kind is "OK" exactly when none of the
    reports of its checker is KO, Degraded or Deactivated; reports with an
    out-of-range status, which are displayed as "Unknown", count as
    healthy, and so does a checker without reports. *)
Theorem AllHealthChecks_OK_iff (c : Component) (ctx : context) (k : Kind) :
  exists m : gmap string string,
    AllHealthChecks Duration_String c ctx = Some m /\
    (m !! kind_name k = Some "OK" <->
     Forall healthy (checker_reports k c ctx)).
Proof.
  destruct (AllHealthChecks_entries Duration_String c ctx)
    as (m & Hm & _ & Hent).
  exists m. split; [exact Hm |]. rewrite Hent.
  destruct (overall_displays (checker_reports k c ctx))
    as (ds & Hall & ->).
  rewrite determineStatus_OK_iff. symmetry.
  apply (Forall2_Forall_iff _ _ _ _ _ displays_healthy Hall).
Qed.

(** X6. In the overall map a kind is "Degraded" exactly when its checker
    returns no KO and no Deactivated report and at least one Degraded
    report, wherever in the sequence that report is. *)
Theorem AllHealthChecks_Degraded_iff (c : Component) (ctx : context)
    (k : Kind) :
  exists m : gmap string string,
    AllHealthChecks Duration_String c ctx = Some m /\
    (m !! kind_name k = Some "Degraded" <->
     Forall (fun r => SentryReport.Status r <> KO /\
                      SentryReport.Status r <> Deactivated)
       (checker_reports k c ctx) /\
     Exists (fun r => SentryReport.Status r = Degraded)
       (checker_reports k c ctx)).
Proof.
  destruct (AllHealthChecks_entries Duration_String c ctx)
    as (m & Hm & _ & Hent).
  exists m. split; [exact Hm |]. rewrite Hent.
  destruct (overall_displays (checker_reports k c ctx))
    as (ds & Hall & ->).
  rewrite determineStatus_Degraded_iff.
  rewrite (Forall2_Forall_iff _ _ _ _ _ displays_short_circuits Hall).
  rewrite (Forall2_Exists_iff _ _ _ _ _ displays_Degraded Hall).
  reflexivity.
Qed.

Lemma determineStatus_uniform (name : string) (ds : list Report.t) :
  name = "OK" \/ name = "KO" \/ name = "Degraded" \/ name = "Deactivated" ->
  ds <> [] ->
  Forall (fun d => Report.Status d = name) ds ->
  determineStatus ds = Some name.
Proof.
  intros Hname Hne Hall.
  destruct ds as [| d rest]; [congruence |].
  destruct Hname as [-> | [-> | [-> | ->]]].
  - apply determineStatus_OK_iff. eapply Forall_impl; [exact Hall |].
    intros r Hr. unfold escalates, short_circuits. now rewrite Hr.
  - inversion Hall as [| ? ? Hd _]; subst.
    unfold determineStatus. rewrite determineStatus_loop_cons, Hd.
    reflexivity.
  - apply determineStatus_Degraded_iff. split.
    + eapply Forall_impl; [exact Hall |].
      intros r Hr. unfold short_circuits. now rewrite Hr.
    + inversion Hall as [| ? ? Hd _]; subst. now apply Exists_cons_hd.
  - inversion Hall as [| ? ? Hd _]; subst.
    unfold determineStatus. rewrite determineStatus_loop_cons, Hd.
    reflexivity.
Qed.

(** X7. When the checker of a kind returns at least one report and all
    its reports carry the same defined status, the kind's entry of the
    overall map is the name of that status (as for a deactivated checker,
    whose reports are all Deactivated). *)
Theorem AllHealthChecks_uniform (c : Component) (ctx : context) (k : Kind)
    (s : Status) :
  OK <= s <= Deactivated ->
  checker_reports k c ctx <> [] ->
  Forall (fun r => SentryReport.Status r = s) (checker_reports k c ctx) ->
  exists m : gmap string string,
    AllHealthChecks Duration_String c ctx = Some m /\
    m !! kind_name k = Status_String s.
Proof.
  intros Hin Hne Hsame.
  destruct (AllHealthChecks_entries Duration_String c ctx)
    as (m & Hm & _ & Hent).
  exists m. split; [exact Hm |]. rewrite Hent.
  destruct (overall_displays (checker_reports k c ctx))
    as (ds & Hall & ->).
  destruct (Status_String_returns s) as (name & Hname).
  rewrite Hname. apply determineStatus_uniform.
  - destruct (Status_String_name_inv s name Hname) as (H0 & H1 & H2 & H3).
    unfold OK, KO, Degraded, Deactivated in *.
    assert (Hcases : s = 0 \/ s = 1 \/ s = 2 \/ s = 3) by lia.
    destruct Hcases as [Hs | [Hs | [Hs | Hs]]].
    + left. now apply H0.
    + right. left. now apply H1.
    + right. right. left. now apply H2.
    + right. right. right. now apply H3.
  - intros ->. inversion Hall; subst. congruence.
  - clear Hne. induction Hall as [| r d rs ds Hrd _ IH]; [constructor |].
    inversion Hsame as [| ? ? Hr Hrest]; subst.
    constructor; [| now apply IH].
    destruct Hrd as (_ & _ & Hst & _). congruence.
Qed.

End AggregatorFurther.

Lemma AllHealthChecks_uniform_witness :
  OK <= KO <= Deactivated /\
  checker_reports Sentry sentry_ko tt <> [] /\
  Forall (fun r => SentryReport.Status r = KO)
    (checker_reports Sentry sentry_ko tt) /\
  exists m : gmap string string,
    AllHealthChecks fixed_rendering sentry_ko tt = Some m /\
    m !! kind_name Sentry = Status_String KO.
Proof.
  assert (Hin : OK <= KO <= Deactivated)
    by (unfold OK, KO, Deactivated; lia).
  assert (Hne : checker_reports Sentry sentry_ko tt <> []) by discriminate.
  assert (Hall : Forall (fun r => SentryReport.Status r = KO)
                   (checker_reports Sentry sentry_ko tt))
    by (repeat constructor).
  split; [exact Hin | split; [exact Hne | split; [exact Hall |]]].
  apply (AllHealthChecks_uniform fixed_rendering sentry_ko tt Sentry KO
           Hin Hne Hall).
Defined.

(** ** Further properties of the sentry module *)

Lemma HealthChecks_run (m : SentryModule) (ctx : context) (w : world) :
  HealthChecks m ctx w =
    match sentryPingCheck m w with
    | (Returned rep, w') => (Returned [rep], w')
    | (Panicked, w') => (Panicked, w')
    end.
Proof.
  unfold HealthChecks, bind.
  destruct (sentryPingCheck m w) as [[rep |] w']; reflexivity.
Qed.

Lemma sentryPingCheck_disabled (m : SentryModule) (w : world) :
  enabled m = false ->
  sentryPingCheck m w =
    (Returned {| SentryReport.Name := "ping";
                 SentryReport.Duration := 0;
                 SentryReport.Status := Deactivated;
                 SentryReport.Error := None |}, w).
Proof. intros Hen. unfold sentryPingCheck. now rewrite Hen. Qed.

(** One run of [pingSentry] for a module's clients, in full: it panics
    when [Get] returns neither an error nor a response with a body. *)
Lemma pingSentry_run (m : SentryModule) (w : world) :
  pingSentry (URL (sentry_client m)) (httpClient m) w =
    (if answered (got m) then Returned (outcome m) else Panicked,
     {| clock := clock w
                 + elapsed (httpClient m) (healthURL (URL (sentry_client m)));
        trace := (trace w
                  ++ EvGet (healthURL (URL (sentry_client m)))
                       :: after_Get m)%list |}).
Proof.
  unfold answered, after_Get, outcome, got.
  destruct (answer (httpClient m) (healthURL (URL (sentry_client m))))
    as [res [e |]] eqn:Hans.
  - rewrite (pingSentry_Get_error _ _ w res e Hans).
    destruct res; reflexivity.
  - destruct res as [r |].
    + destruct (http.Body r) as [b |] eqn:Hbody.
      * rewrite (pingSentry_response _ _ w r b Hans Hbody).
        simpl trace. rewrite <- !app_assoc. reflexivity.
      * rewrite (pingSentry_no_body _ _ w r Hans Hbody). reflexivity.
    + rewrite (pingSentry_no_response _ _ w Hans). reflexivity.
Qed.

(** One run of the sub-check of an enabled module, in full. *)
Lemma sentryPingCheck_run (m : SentryModule) (w : world) :
  enabled m = true ->
  sentryPingCheck m w =
    (if answered (got m) then Returned (enabled_report m) else Panicked,
     {| clock := clock w
                 + elapsed (httpClient m) (healthURL (URL (sentry_client m)));
        trace := (trace w
                  ++ EvGet (healthURL (URL (sentry_client m)))
                       :: after_Get m)%list |}).
Proof.
  intros Hen. pose proof (pingSentry_run m w) as Hping.
  destruct (answered (got m)).
  - rewrite (sentryPingCheck_enabled m w _ _ Hen Hping).
    simpl clock. rewrite Z.add_simpl_l. unfold enabled_report.
    destruct (outcome m); reflexivity.
  - unfold sentryPingCheck. rewrite Hen.
    unfold bind, time_Now. cbv beta iota delta [negb].
    rewrite Hping. reflexivity.
Qed.

Lemma gets_app (a b : list event) : gets (a ++ b) = (gets a ++ gets b)%list.
Proof.
  induction a as [| e a IH]; [reflexivity |].
  destruct e; simpl; now rewrite IH.
Qed.

Lemma gets_after_Get (m : SentryModule) : gets (after_Get m) = [].
Proof.
  unfold after_Get. destruct (got m) as [[r |] [e |]]; try reflexivity.
  destruct (http.Body r) as [b |]; [| reflexivity].
  unfold reads. destruct (negb (http.StatusCode r =? http.StatusOK));
    reflexivity.
Qed.

Lemma answered_false_iff (g : option http.Response * option error) :
  answered g = false <->
  g = (None, None) \/
  exists r : http.Response, g = (Some r, None) /\ http.Body r = None.
Proof.
  destruct g as [[r |] [e |]]; simpl.
  - split; [discriminate | intros [[=] | (r' & [=] & _)]].
  - destruct (http.Body r) as [b |] eqn:Hbody.
    + split; [discriminate |].
      intros [[=] | (r' & [= <-] & Hnone)]. congruence.
    + split; [| reflexivity]. intros _. right. exists r. split; [reflexivity | exact Hbody].
  - split; [discriminate | intros [[=] | (r' & [=] & _)]].
  - split; [intros _; left; reflexivity | reflexivity].
Qed.

Lemma outcome_None_iff (m : SentryModule) :
  answered (got m) = true ->
  (outcome m = None <->
   exists (r : http.Response) (b : http.ReadCloser),
     got m = (Some r, None) /\
     http.StatusCode r = http.StatusOK /\
     http.Body r = Some b /\
     http.readErr b = None /\
     http.data b = "ok").
Proof.
  unfold outcome, answered.
  destruct (got m) as [[r |] [e |]]; intros Hgot; try discriminate Hgot.
  - split; [discriminate | intros (r' & b & [=] & _)].
  - destruct (http.Body r) as [b |] eqn:Hbody; [| discriminate Hgot].
    unfold verdict. split.
    + destruct (Z.eqb_spec (http.StatusCode r) http.StatusOK) as [Hc | Hc];
        [| discriminate].
      simpl negb. cbv iota.
      destruct (http.readErr b) eqn:Hr; [discriminate |].
      destruct (String.eqb_spec (http.data b) "ok") as [Hd | Hd];
        [| discriminate].
      intros _. exists r, b. repeat split; assumption.
    + intros (r' & b' & [= <-] & Hc & Hb & Hr & Hd).
      rewrite Hbody in Hb. injection Hb as <-.
      rewrite Hc, Hr, Hd. reflexivity.
  - split; [discriminate | intros (r' & b & [=] & _)].
Qed.

(** X8. Whenever [HealthChecks] of the sentry module returns, it returns
    exactly one report, named "ping"; its status is OK, KO or Deactivated
    (never Degraded), Deactivated exactly when the module is disabled; its
    error is non-nil exactly when the status is KO, and is then the error
    that [pingSentry] returned in this run, wrapped with the message
    "could not ping sentry". *)
Theorem HealthChecks_report (m : SentryModule) (ctx : context)
    (w w' : world) (reports : list SentryReport.t) :
  HealthChecks m ctx w = (Returned reports, w') ->
  exists rep : SentryReport.t,
    reports = [rep] /\
    SentryReport.Name rep = "ping" /\
    (SentryReport.Status rep = OK \/ SentryReport.Status rep = KO \/
     SentryReport.Status rep = Deactivated) /\
    (SentryReport.Status rep = Deactivated <-> enabled m = false) /\
    (SentryReport.Status rep = KO <-> SentryReport.Error rep <> None) /\
    (forall e : error,
        SentryReport.Error rep = Some e ->
        exists (cause : error) (w1 : world),
          pingSentry (URL (sentry_client m)) (httpClient m) w
            = (Returned (Some cause), w1) /\
          e = Wrap cause "could not ping sentry").
Proof.
  rewrite HealthChecks_run. destruct (enabled m) eqn:Hen.
  - rewrite (sentryPingCheck_run m w Hen).
    pose proof (pingSentry_run m w) as Hping.
    destruct (answered (got m)); intros [= <- <-].
    eexists. split; [reflexivity |]. unfold enabled_report. simpl.
    destruct (outcome m) as [e' |].
    + split; [reflexivity |]. split; [right; left; reflexivity |].
      split; [split; discriminate |].
      split; [split; [discriminate | reflexivity] |].
      intros e0 [= <-]. exists e'. eexists. split; [exact Hping | reflexivity].
    + split; [reflexivity |]. split; [left; reflexivity |].
      split; [split; discriminate |].
      split; [split; [discriminate | congruence] |].
      intros e0 [=].
  - rewrite (sentryPingCheck_disabled m w Hen). intros [= <- <-].
    eexists. split; [reflexivity |]. simpl.
    split; [reflexivity |]. split; [right; right; reflexivity |].
    split; [split; reflexivity |].
    split; [split; [discriminate | congruence] |].
    intros e0 [=].
Qed.

Lemma HealthChecks_report_witness :
  HealthChecks mismatching_module tt (mkWorld 0 [])
    = (Returned [enabled_report mismatching_module],
       mkWorld 5 [EvGet "https://key@sentry.io/_health";
                  EvReadAll not_ok_body;
                  EvClose not_ok_body]) /\
  exists rep : SentryReport.t,
    [enabled_report mismatching_module] = [rep] /\
    SentryReport.Name rep = "ping" /\
    (SentryReport.Status rep = OK \/ SentryReport.Status rep = KO \/
     SentryReport.Status rep = Deactivated) /\
    (SentryReport.Status rep = Deactivated <->
     enabled mismatching_module = false) /\
    (SentryReport.Status rep = KO <-> SentryReport.Error rep <> None) /\
    (forall e : error,
        SentryReport.Error rep = Some e ->
        exists (cause : error) (w1 : world),
          pingSentry (URL (sentry_client mismatching_module))
            (httpClient mismatching_module) (mkWorld 0 [])
            = (Returned (Some cause), w1) /\
          e = Wrap cause "could not ping sentry").
Proof.
  assert (H : HealthChecks mismatching_module tt (mkWorld 0 [])
              = (Returned [enabled_report mismatching_module],
                 mkWorld 5 [EvGet "https://key@sentry.io/_health";
                            EvReadAll not_ok_body;
                            EvClose not_ok_body]))
    by reflexivity.
  split; [exact H |].
  exact (HealthChecks_report mismatching_module tt _ _ _ H).
Defined.

(** X9. [HealthChecks] of a sentry module that holds both its clients
    panics in exactly two situations, both of an enabled module: [Get]
    returns a nil response together
    with a nil error, so that [res.StatusCode] dereferences nil; or [Get]
    returns, with a nil error, a response whose [Body] is nil, so that
    [defer res.Body.Close()] dereferences nil.  In every other situation
    it returns. *)
Theorem HealthChecks_panics_iff (m : SentryModule) (ctx : context)
    (w : world) :
  (exists w' : world, HealthChecks m ctx w = (Panicked, w')) <->
  enabled m = true /\
  (got m = (None, None) \/
   exists r : http.Response, got m = (Some r, None) /\ http.Body r = None).
Proof.
  rewrite HealthChecks_run, <- answered_false_iff.
  destruct (enabled m) eqn:Hen.
  - rewrite (sentryPingCheck_run m w Hen).
    destruct (answered (got m)).
    + split; [intros [w' [=]] | intros [_ [=]]].
    + split; [intros _; split; reflexivity |].
      intros _. eexists. reflexivity.
  - rewrite (sentryPingCheck_disabled m w Hen). split.
    + intros [w' [=]].
    + intros [[=] _].
Qed.

(** X10. Every run of [HealthChecks] of an enabled module, whether it
    returns or panics, issues exactly one [Get], and issues it for the
    health URL built from the sentry client's URL: no retry and no second
    request. *)
Theorem HealthChecks_one_Get (m : SentryModule) (ctx : context) (w : world) :
  enabled m = true ->
  exists (out : result (list SentryReport.t)) (w' : world),
    HealthChecks m ctx w = (out, w') /\
    gets (trace w')
      = (gets (trace w) ++ [healthURL (URL (sentry_client m))])%list.
Proof.
  intros Hen. rewrite HealthChecks_run, (sentryPingCheck_run m w Hen).
  destruct (answered (got m)); eexists; eexists;
    (split; [reflexivity |]); simpl trace;
    rewrite gets_app; simpl gets; now rewrite gets_after_Get.
Qed.

Lemma HealthChecks_one_Get_witness :
  enabled truncating_module = true /\
  exists (out : result (list SentryReport.t)) (w' : world),
    HealthChecks truncating_module tt (mkWorld 0 []) = (out, w') /\
    gets (trace w')
      = (gets [] ++ [healthURL (URL (sentry_client truncating_module))])%list.
Proof.
  split; [reflexivity |].
  apply (HealthChecks_one_Get truncating_module tt (mkWorld 0 [])).
  reflexivity.
Defined.

(** X11. The sub-check of an enabled module reports OK exactly when [Get]
    returns a response without an error, the status code is 200, the body
    is read without an error and is exactly "ok". *)
Theorem sentryPingCheck_OK_iff (m : SentryModule) (w : world) :
  enabled m = true ->
  ((exists (rep : SentryReport.t) (w' : world),
       sentryPingCheck m w = (Returned rep, w') /\
       SentryReport.Status rep = OK) <->
   exists (r : http.Response) (b : http.ReadCloser),
     got m = (Some r, None) /\
     http.StatusCode r = http.StatusOK /\
     http.Body r = Some b /\
     http.readErr b = None /\
     http.data b = "ok").
Proof.
  intros Hen. rewrite (sentryPingCheck_run m w Hen).
  destruct (answered (got m)) eqn:Hgot.
  - rewrite <- (outcome_None_iff m Hgot). split.
    + intros (rep & w' & [= <- _] & Hst).
      unfold enabled_report in Hst. simpl in Hst.
      destruct (outcome m); [discriminate Hst | reflexivity].
    + intros Hout. eexists. eexists. split; [reflexivity |].
      unfold enabled_report. simpl. now rewrite Hout.
  - split.
    + intros (rep & w' & [=] & _).
    + intros (r & b & Hg & _ & Hb & _). exfalso.
      unfold answered in Hgot. rewrite Hg, Hb in Hgot. discriminate Hgot.
Qed.

Lemma sentryPingCheck_OK_iff_witness :
  enabled mismatching_module = true /\
  ((exists (rep : SentryReport.t) (w' : world),
       sentryPingCheck mismatching_module (mkWorld 0 []) = (Returned rep, w') /\
       SentryReport.Status rep = OK) <->
   exists (r : http.Response) (b : http.ReadCloser),
     got mismatching_module = (Some r, None) /\
     http.StatusCode r = http.StatusOK /\
     http.Body r = Some b /\
     http.readErr b = None /\
     http.data b = "ok").
Proof.
  split; [reflexivity |].
  apply (sentryPingCheck_OK_iff mismatching_module (mkWorld 0 [])).
  reflexivity.
Defined.

(** X12. When [Get] returns a response that has a body and no error,
    [pingSentry] returns, and what it does after the [Get] is: read the
    body, exactly when the status code is 200, and then close it.  The
    body of a response with another status code is closed without being
    read. *)
Theorem pingSentry_reads_iff_200 (dsn : string) (c : sentryHTTPClient)
    (w : world) (r : http.Response) (b : http.ReadCloser) :
  answer c (healthURL dsn) = (Some r, None) ->
  http.Body r = Some b ->
  exists (e : option error) (w' : world) (mid : list event),
    pingSentry dsn c w = (Returned e, w') /\
    trace w' = (trace w ++ EvGet (healthURL dsn) :: mid
                  ++ [EvClose b])%list /\
    (EvReadAll b ∈ mid <-> http.StatusCode r = http.StatusOK) /\
    (http.StatusCode r <> http.StatusOK -> mid = []).
Proof.
  intros Hans Hbody. exists (verdict r b). eexists. exists (reads r b).
  split; [exact (pingSentry_response dsn c w r b Hans Hbody) |].
  split; [simpl; now rewrite <- !app_assoc |].
  unfold reads.
  destruct (Z.eqb_spec (http.StatusCode r) http.StatusOK) as [Hc | Hc];
    simpl.
  - split; [| intros H; contradiction].
    split; [intros _; exact Hc |]. intros _.
    apply list_elem_of_singleton. reflexivity.
  - split; [| reflexivity].
    split; [| intros H; contradiction].
    intros Hin. now apply not_elem_of_nil in Hin.
Qed.

Lemma pingSentry_reads_iff_200_witness :
  answer redirect_free_client
    (healthURL "https://key@sentry.io/api/12") = (Some redirected, None) /\
  http.Body redirected = Some redirected_body /\
  exists (e : option error) (w' : world) (mid : list event),
    pingSentry "https://key@sentry.io/api/12" redirect_free_client
      (mkWorld 0 []) = (Returned e, w') /\
    trace w' = ([] ++ EvGet (healthURL "https://key@sentry.io/api/12") :: mid
                  ++ [EvClose redirected_body])%list /\
    (EvReadAll redirected_body ∈ mid
     <-> http.StatusCode redirected = http.StatusOK) /\
    (http.StatusCode redirected <> http.StatusOK -> mid = []).
Proof.
  split; [reflexivity |]. split; [reflexivity |].
  apply (pingSentry_reads_iff_200 "https://key@sentry.io/api/12"
           redirect_free_client (mkWorld 0 []) redirected redirected_body);
    reflexivity.
Defined.

Section AggregatedSentry.

Variable Duration_String : Z -> string.

Lemma overall_of_module (m : SentryModule) (ctx : context) (w w' : world)
    (reports : list SentryReport.t) :
  HealthChecks m ctx w = (Returned reports, w') ->
  overall Duration_String reports =
    Some (if enabled m
          then match outcome m with Some _ => "KO" | None => "OK" end
          else "Deactivated").
Proof.
  rewrite HealthChecks_run. destruct (enabled m) eqn:Hen.
  - rewrite (sentryPingCheck_run m w Hen).
    destruct (answered (got m)); intros [= <- <-].
    unfold overall, enabled_report. simpl.
    destruct (outcome m); reflexivity.
  - rewrite (sentryPingCheck_disabled m w Hen). intros [= <- <-].
    reflexivity.
Qed.

(** X13. When the sentry checker of a component is the sentry module,
    the "sentry" entry of the overall map is "Deactivated" if the module
    is disabled, and if it is enabled "KO" when [pingSentry] returned an
    error and "OK" when it did not: it is never "Degraded". *)
Theorem sentry_overall (m : SentryModule) (ctx ctx' : context)
    (w w' : world) (reports : list SentryReport.t) (c : Component) :
  HealthChecks m ctx w = (Returned reports, w') ->
  SentryHealthChecker.HealthChecks (sentry c) ctx' = reports ->
  exists all : gmap string string,
    AllHealthChecks Duration_String c ctx' = Some all /\
    all !! "sentry" =
      Some (if enabled m
            then match outcome m with Some _ => "KO" | None => "OK" end
            else "Deactivated").
Proof.
  intros Hrun Hc.
  destruct (AllHealthChecks_entries Duration_String c ctx')
    as (all & Hall & _ & Hent).
  exists all. split; [exact Hall |].
  specialize (Hent Sentry). simpl in Hent.
  rewrite Hent, Hc. exact (overall_of_module m ctx w w' reports Hrun).
Qed.

End AggregatedSentry.

Lemma sentry_overall_witness :
  HealthChecks disabled_module tt (mkWorld 0 [])
    = (Returned [SentryReport.mk "ping" 0 Deactivated None], mkWorld 0 []) /\
  SentryHealthChecker.HealthChecks
    (sentry (component_returning [] [] []
               [SentryReport.mk "ping" 0 Deactivated None])) tt
    = [SentryReport.mk "ping" 0 Deactivated None] /\
  exists all : gmap string string,
    AllHealthChecks fixed_rendering
      (component_returning [] [] []
         [SentryReport.mk "ping" 0 Deactivated None]) tt = Some all /\
    all !! "sentry" =
      Some (if enabled disabled_module
            then match outcome disabled_module with
                 | Some _ => "KO"
                 | None => "OK"
                 end
            else "Deactivated").
Proof.
  assert (H : HealthChecks disabled_module tt (mkWorld 0 [])
              = (Returned [SentryReport.mk "ping" 0 Deactivated None],
                 mkWorld 0 []))
    by reflexivity.
  split; [exact H | split; [reflexivity |]].
  exact (sentry_overall fixed_rendering disabled_module tt tt _ _ _
           (component_returning [] [] []
              [SentryReport.mk "ping" 0 Deactivated None])
           H eq_refl).
Defined.

(** ** Further properties of the health URL *)

Section StringFurther.

Local Open Scope nat_scope.
Local Open Scope string_scope.

Lemma append_split (a : string) :
  forall b x y : string,
    a ++ b = x ++ y ->
    (exists z, x = a ++ z /\ b = z ++ y) \/
    (exists z, a = x ++ z /\ y = z ++ b).
Proof.
  induction a as [| c a IH]; intros b x y H.
  - left. exists x. split; [reflexivity | exact H].
  - destruct x as [| d x].
    + right. exists (String c a). split; [reflexivity |].
      rewrite append_nil_l in H. now rewrite H.
    + rewrite !append_cons in H. injection H as -> H.
      destruct (IH b x y H) as [(z & -> & Hb) | (z & -> & Hy)].
      * left. exists z. split; [now rewrite append_cons | exact Hb].
      * right. exists z. split; [now rewrite append_cons | exact Hy].
Qed.

Lemma append_length_nil (a z : string) :
  String.length (a ++ z) <= String.length a -> z = "".
Proof.
  rewrite length_append. destruct z; [reflexivity |]. simpl. lia.
Qed.

(** No occurrence of the marker starts inside "api/" or behind it when
    "api/" does not occur in what follows. *)
Lemma marker_not_later (q z q0 : string) :
  ~ occurs "api/" q ->
  "/api/" ++ q = z ++ "/api/" ++ q0 ->
  z = "".
Proof.
  intros Hno H.
  destruct z as [| c1 z]; [reflexivity |]. exfalso.
  rewrite !append_cons, append_nil_l in H. injection H as _ H.
  destruct z as [| c2 z];
    [rewrite append_nil_l in H; discriminate H |].
  rewrite !append_cons in H. injection H as _ H.
  destruct z as [| c3 z];
    [rewrite append_nil_l in H; discriminate H |].
  rewrite !append_cons in H. injection H as _ H.
  destruct z as [| c4 z];
    [rewrite append_nil_l in H; discriminate H |].
  rewrite !append_cons in H. injection H as _ H.
  apply Hno. destruct z as [| c5 z].
  - rewrite append_nil_l in H. injection H as H.
    exists "", q0. rewrite append_nil_l. exact H.
  - rewrite !append_cons in H. injection H as _ H.
    exists (z ++ "/"), q0. rewrite H, append_assoc. reflexivity.
Qed.

Lemma healthURL_found (dsn : string) :
  occurs "/api/" dsn ->
  exists P q0 : string,
    dsn = P ++ "/api/" ++ q0 /\
    (forall p' q', dsn = p' ++ "/api/" ++ q' ->
                   String.length p' <= String.length P) /\
    healthURL dsn = P ++ "/_health".
Proof.
  assert (Hm : "/api/" <> "") by discriminate.
  intros Hocc. apply (occurs_LastIndex dsn "/api/" Hm) in Hocc.
  destruct (LastIndex_found dsn "/api/" _ Hm eq_refl Hocc) as (q0 & Hs & Hlast).
  exists (String.substring 0 (Z.to_nat (strings_LastIndex dsn "/api/")) dsn), q0.
  split; [exact Hs |]. split; [exact Hlast |].
  unfold healthURL.
  destruct (Z.eqb_spec (strings_LastIndex dsn "/api/") (-1)) as [Heq | _];
    [contradiction | reflexivity].
Qed.

(** X14. A DSN put together from a base, the marker "/api/" and a rest in
    which "api/" does not occur again gives back the base: its health
    URL is the base followed by "/_health". *)
Theorem healthURL_rebuild (base rest : string) :
  ~ occurs "api/" rest ->
  healthURL (base ++ "/api/" ++ rest) = base ++ "/_health".
Proof.
  intros Hno.
  destruct (healthURL_found (base ++ "/api/" ++ rest))
    as (P & q0 & Hs & Hlast & ->); [exists base, rest; reflexivity |].
  f_equal.
  pose proof (Hlast base rest eq_refl) as Hle.
  destruct (append_split base ("/api/" ++ rest) P ("/api/" ++ q0) Hs)
    as [(z & -> & Hz) | (z & Hb & _)].
  - rewrite (marker_not_later rest z q0 Hno Hz). apply append_nil_r.
  - rewrite Hb in Hle. apply append_length_nil in Hle. subst z.
    rewrite Hb. symmetry. apply append_nil_r.
Qed.

(** X15. The health URL is empty exactly when the marker "/api/" does
    not occur in the DSN; with the marker it is never empty. *)
Theorem healthURL_empty_iff (dsn : string) :
  healthURL dsn = "" <-> ~ occurs "/api/" dsn.
Proof.
  split.
  - intros Hempty Hocc.
    destruct (healthURL_found dsn Hocc) as (P & q0 & _ & _ & Hurl).
    rewrite Hurl in Hempty.
    apply (f_equal String.length) in Hempty.
    rewrite length_append in Hempty. simpl in Hempty. lia.
  - intros Hno. unfold healthURL.
    destruct (Z.eqb_spec (strings_LastIndex dsn "/api/") (-1)) as [_ | Hne];
      [reflexivity |].
    exfalso. apply Hno.
    apply (occurs_LastIndex dsn "/api/"); [discriminate | exact Hne].
Qed.

End StringFurther.

Lemma healthURL_rebuild_witness :
  ~ occurs "api/" "12/store/" /\
  healthURL ("https://key@sentry.io" ++ "/api/" ++ "12/store/")
    = ("https://key@sentry.io" ++ "/_health")%string.
Proof.
  assert (Hno : ~ occurs "api/" "12/store/")
    by (apply LastIndex_absent; reflexivity).
  split; [exact Hno |].
  apply healthURL_rebuild. exact Hno.
Defined.

(** ** The sentry report as the aggregator displays it *)

Section DisplayedSentry.

Variable Duration_String : Z -> string.

Lemma wrapped_message_not_empty (e : error) :
  err (Some (Wrap e "could not ping sentry")) <> "".
Proof. unfold err, Wrap. simpl Error. rewrite append_cons. discriminate. Qed.

(** X16. When the sentry checker of a component is the sentry module,
    [SentryHealthChecks] displays exactly one report, named "ping", with
    status "OK", "KO" or "Deactivated", and its Error string is empty
    exactly when the status is not "KO". *)
Theorem SentryHealthChecks_display (m : SentryModule) (ctx ctx' : context)
    (w w' : world) (reports : list SentryReport.t) (c : Component) :
  HealthChecks m ctx w = (Returned reports, w') ->
  SentryHealthChecker.HealthChecks (sentry c) ctx' = reports ->
  exists d : Report.t,
    SentryHealthChecks Duration_String c ctx' = Some [d] /\
    Report.Name d = "ping" /\
    (Report.Status d = "OK" \/ Report.Status d = "KO" \/
     Report.Status d = "Deactivated") /\
    (Report.Error d = "" <-> Report.Status d <> "KO").
Proof.
  intros Hrun Hc. unfold SentryHealthChecks. rewrite Hc. clear Hc.
  rewrite HealthChecks_run in Hrun. destruct (enabled m) eqn:Hen.
  - rewrite (sentryPingCheck_run m w Hen) in Hrun.
    assert (Hrep : reports = [enabled_report m])
      by (destruct (answered (got m)); congruence).
    subst reports. unfold enabled_report. simpl.
    destruct (outcome m) as [e |]; simpl.
    + eexists. split; [reflexivity |]. simpl. split; [reflexivity |].
      split; [right; left; reflexivity |].
      split; [intros H; now apply wrapped_message_not_empty in H |].
      intros H. now destruct H.
    + eexists. split; [reflexivity |]. simpl. split; [reflexivity |].
      split; [left; reflexivity |].
      split; [discriminate | reflexivity].
  - rewrite (sentryPingCheck_disabled m w Hen) in Hrun.
    injection Hrun as <- _. simpl.
    eexists. split; [reflexivity |]. simpl. split; [reflexivity |].
    split; [right; right; reflexivity |].
    split; [discriminate | reflexivity].
Qed.

End DisplayedSentry.

Lemma SentryHealthChecks_display_witness :
  HealthChecks mismatching_module tt (mkWorld 0 [])
    = (Returned [enabled_report mismatching_module],
       mkWorld 5 [EvGet "https://key@sentry.io/_health";
                  EvReadAll not_ok_body;
                  EvClose not_ok_body]) /\
  SentryHealthChecker.HealthChecks
    (sentry (component_returning [] [] []
               [enabled_report mismatching_module])) tt
    = [enabled_report mismatching_module] /\
  exists d : Report.t,
    SentryHealthChecks fixed_rendering
      (component_returning [] [] [] [enabled_report mismatching_module]) tt
      = Some [d] /\
    Report.Name d = "ping" /\
    (Report.Status d = "OK" \/ Report.Status d = "KO" \/
     Report.Status d = "Deactivated") /\
    (Report.Error d = "" <-> Report.Status d <> "KO").
Proof.
  assert (H : HealthChecks mismatching_module tt (mkWorld 0 [])
              = (Returned [enabled_report mismatching_module],
                 mkWorld 5 [EvGet "https://key@sentry.io/_health";
                            EvReadAll not_ok_body;
                            EvClose not_ok_body]))
    by reflexivity.
  split; [exact H | split; [reflexivity |]].
  exact (SentryHealthChecks_display fixed_rendering mismatching_module tt tt
           _ _ _
           (component_returning [] [] [] [enabled_report mismatching_module])
           H eq_refl).
Defined.
